(** * Synth driver core (synth.c / synth.h): shallow embedding and properties

    The driver keeps two file-scope statics, [SynthIO] (the registered table
    of low-level callbacks) and [SynthCtx] (the runtime configuration), and
    ten public functions that read and write them and forward to the
    callbacks.  The embedding threads those two statics explicitly, together
    with the world the callbacks act on and a ghost trace of the callback
    invocations the driver performs. *)

From Stdlib Require Import ZArith List Lia.
From stdpp Require Import base option list gmap.

Local Open Scope Z_scope.

(** ** Constants of synth.h *)

Definition SYNTH_STATUS_OK : Z := 0.
Definition SYNTH_STATUS_ERROR : Z := 1.
Definition SYNTH_STATUS_BUSY : Z := 2.
Definition SYNTH_STATUS_TIMEOUT : Z := 3.

Definition SYNTH_DEFAULT_SAMPLE_RATE : Z := 44100.
Definition SYNTH_DEFAULT_CHANNELS : Z := 2.
Definition SYNTH_DEFAULT_VOLUME : Z := 75.

(** ** Machine integers and pointers *)

(** Conversion to [uint32_t]: reduction modulo 2^32. *)
Definition to_uint32 (x : Z) : Z := x mod 2 ^ 32.

(** [sizeof(int16_t)]. *)
Definition sizeof_int16_t : Z := 2.

(** Ranges of the C parameter types. *)
Definition is_uint8 (x : Z) : Prop := 0 <= x < 2 ^ 8.
Definition is_uint32 (x : Z) : Prop := 0 <= x < 2 ^ 32.

(** A data pointer is either [NULL] or the address of an object. *)
Definition ptr : Type := option Z.
Definition NULL : ptr := None.

(** ** The world outside the driver

    Everything the callbacks and the caller own: the board's hardware state
    (left abstract) and the caller's memory, a finite map from addresses to
    the integer stored in the object at that address.  The driver's two
    statics have internal linkage and are not part of it: a callback acts on
    the world only and does not call back into the driver. *)

Record World (HW : Type) : Type := mkWorld {
  hw : HW;
  mem : gmap Z Z
}.
Arguments mkWorld {HW} _ _.
Arguments hw {HW} _.
Arguments mem {HW} _.

(** [*p = v] for a non-null [p] into the caller's memory. *)
Definition store {HW : Type} (a : Z) (v : Z) (w : World HW) : World HW :=
  mkWorld (hw w) (<[a := v]> (mem w)).

(** ** SYNTH_IO_t: the table of low-level callbacks

    A function pointer is [None] when it is [NULL]; otherwise it is the
    behaviour of the pointed-to function: its [int32_t] result and its effect
    on the world. *)

Module IO.
Section Table.
Context {HW : Type}.

Record t : Type := mk {
  Init          : option (World HW -> Z * World HW);
  DeInit        : option (World HW -> Z * World HW);
  Transmit      : option (ptr -> Z -> World HW -> Z * World HW);
  SetSampleRate : option (Z -> World HW -> Z * World HW);
  GetSampleRate : option (ptr -> World HW -> Z * World HW);
  Mute          : option (Z -> World HW -> Z * World HW)
}.

(** The zero-initialised static: every slot [NULL]. *)
Definition zero : t := mk None None None None None None.
End Table.
Arguments t : clear implicits.
End IO.

(** ** SYNTH_Ctx_t: the runtime configuration *)

Record SYNTH_Ctx_t : Type := mkCtx {
  SampleRate  : Z;   (* uint32_t *)
  Channels    : Z;   (* uint8_t  *)
  Volume      : Z;   (* uint8_t  *)
  Mute        : Z;   (* uint8_t  *)
  Initialized : Z    (* uint8_t  *)
}.

(** The context after [memset(&SynthCtx, 0, sizeof(SYNTH_Ctx_t))], which is
    also its value at program start. *)
Definition ctx_zero : SYNTH_Ctx_t := mkCtx 0 0 0 0 0.

Definition set_SampleRate (v : Z) (c : SYNTH_Ctx_t) : SYNTH_Ctx_t :=
  mkCtx v (Channels c) (Volume c) (Mute c) (Initialized c).
Definition set_Channels (v : Z) (c : SYNTH_Ctx_t) : SYNTH_Ctx_t :=
  mkCtx (SampleRate c) v (Volume c) (Mute c) (Initialized c).
Definition set_Volume (v : Z) (c : SYNTH_Ctx_t) : SYNTH_Ctx_t :=
  mkCtx (SampleRate c) (Channels c) v (Mute c) (Initialized c).
Definition set_Mute (v : Z) (c : SYNTH_Ctx_t) : SYNTH_Ctx_t :=
  mkCtx (SampleRate c) (Channels c) (Volume c) v (Initialized c).
Definition set_Initialized (v : Z) (c : SYNTH_Ctx_t) : SYNTH_Ctx_t :=
  mkCtx (SampleRate c) (Channels c) (Volume c) (Mute c) v.

(** ** Ghost trace of callback invocations

    One event per indirect call the driver makes, recording the callee that
    was read from the table and the arguments it was given. *)

Inductive Event (HW : Type) : Type :=
| CallInit (f : World HW -> Z * World HW)
| CallDeInit (f : World HW -> Z * World HW)
| CallTransmit (f : ptr -> Z -> World HW -> Z * World HW) (pData : ptr) (size : Z)
| CallSetSampleRate (f : Z -> World HW -> Z * World HW) (sample_rate : Z)
| CallMute (f : Z -> World HW -> Z * World HW) (enable : Z).
Arguments CallInit {HW} _.
Arguments CallDeInit {HW} _.
Arguments CallTransmit {HW} _ _ _.
Arguments CallSetSampleRate {HW} _ _.
Arguments CallMute {HW} _ _.

(** ** Program state *)

Record State (HW : Type) : Type := mkState {
  SynthIO  : IO.t HW;          (* static SYNTH_IO_t SynthIO;   *)
  SynthCtx : SYNTH_Ctx_t;      (* static SYNTH_Ctx_t SynthCtx; *)
  world    : World HW;
  calls    : list (Event HW)
}.
Arguments mkState {HW} _ _ _ _.
Arguments SynthIO {HW} _.
Arguments SynthCtx {HW} _.
Arguments world {HW} _.
Arguments calls {HW} _.

Section Driver.
Context {HW : Type}.

Abbreviation World := (World HW).
Abbreviation State := (State HW).
Abbreviation Event := (Event HW).

Definition set_io (io : IO.t HW) (st : State) : State :=
  mkState io (SynthCtx st) (world st) (calls st).
Definition set_ctx (c : SYNTH_Ctx_t) (st : State) : State :=
  mkState (SynthIO st) c (world st) (calls st).
Definition upd_ctx (f : SYNTH_Ctx_t -> SYNTH_Ctx_t) (st : State) : State :=
  set_ctx (f (SynthCtx st)) st.
Definition set_world (w : World) (st : State) : State :=
  mkState (SynthIO st) (SynthCtx st) w (calls st).

(** An indirect call through a non-null slot: run the callee on the world
    and log the call. *)
Definition invoke (e : Event) (body : World -> Z * World) (st : State)
  : Z * State :=
  let (r, w) := body (world st) in
  (r, mkState (SynthIO st) (SynthCtx st) w (calls st ++ [e])).

(** The pattern [if (SynthIO.X) { SynthIO.X(args); }]: an optional
  forwarding call whose result is dropped. *)
Definition forwarded {A : Type} (slot : option A)
         (ev : A -> Event) (body : A -> World -> Z * World) (st : State)
  : State :=
  match slot with
  | Some f => snd (invoke (ev f) (body f) st)
  | None => st
  end.

(** Program start: both statics zero-initialised, nothing called yet. *)
Definition boot (w : World) : State := mkState IO.zero ctx_zero w [].

(** ** The public functions of synth.c *)

Definition SYNTH_RegisterBusIO (pObj : ptr) (pIO : option (IO.t HW))
           (st : State) : Z * State :=
  match pIO with
  | None => (SYNTH_STATUS_ERROR, st)
  | Some io => (SYNTH_STATUS_OK, set_io io st)
  end.

Definition SYNTH_Init (pObj : ptr) (sample_rate channels : Z) (st : State)
  : Z * State :=
  match IO.Init (SynthIO st) with
  | None => (SYNTH_STATUS_ERROR, st)
  | Some init =>
    let (r, st1) := invoke (CallInit init) init st in
    if negb (r =? 0) then (SYNTH_STATUS_ERROR, st1)
    else
      let st2 := upd_ctx (set_SampleRate sample_rate) st1 in
      let st3 := upd_ctx (set_Channels channels) st2 in
      let st4 := upd_ctx (set_Volume SYNTH_DEFAULT_VOLUME) st3 in
      let st5 := upd_ctx (set_Mute 0) st4 in
      let st6 := upd_ctx (set_Initialized 1) st5 in
      let st7 :=
        match IO.SetSampleRate (SynthIO st6) with
        | Some f => snd (invoke (CallSetSampleRate f sample_rate) (f sample_rate) st6)
        | None => st6
        end in
      (SYNTH_STATUS_OK, st7)
  end.

Definition SYNTH_DeInit (pObj : ptr) (st : State) : Z * State :=
  let st1 :=
    match IO.DeInit (SynthIO st) with
    | Some f => snd (invoke (CallDeInit f) f st)
    | None => st
    end in
  (SYNTH_STATUS_OK, set_ctx ctx_zero st1).

Definition SYNTH_PlayBuffer (pObj : ptr) (buffer : ptr) (length : Z)
           (st : State) : Z * State :=
  if Initialized (SynthCtx st) =? 0 then (SYNTH_STATUS_ERROR, st)
  else
    match IO.Transmit (SynthIO st) with
    | None => (SYNTH_STATUS_ERROR, st)
    | Some transmit =>
      let size := to_uint32 (length * sizeof_int16_t) in
      invoke (CallTransmit transmit buffer size) (transmit buffer size) st
    end.

Definition SYNTH_Stop (pObj : ptr) (st : State) : Z * State :=
  (SYNTH_STATUS_OK, st).

Definition SYNTH_SetSampleRate (pObj : ptr) (sample_rate : Z) (st : State)
  : Z * State :=
  let st1 := upd_ctx (set_SampleRate sample_rate) st in
  let st2 :=
    match IO.SetSampleRate (SynthIO st1) with
    | Some f => snd (invoke (CallSetSampleRate f sample_rate) (f sample_rate) st1)
    | None => st1
    end in
  (SYNTH_STATUS_OK, st2).

Definition SYNTH_GetSampleRate (pObj : ptr) (sample_rate : ptr) (st : State)
  : Z * State :=
  match sample_rate with
  | None => (SYNTH_STATUS_ERROR, st)
  | Some a =>
    (SYNTH_STATUS_OK, set_world (store a (SampleRate (SynthCtx st)) (world st)) st)
  end.

Definition SYNTH_SetVolume (pObj : ptr) (volume : Z) (st : State)
  : Z * State :=
  let volume := if 100 <? volume then 100 else volume in
  (SYNTH_STATUS_OK, upd_ctx (set_Volume volume) st).

Definition SYNTH_GetVolume (pObj : ptr) (volume : ptr) (st : State)
  : Z * State :=
  match volume with
  | None => (SYNTH_STATUS_ERROR, st)
  | Some a =>
    (SYNTH_STATUS_OK, set_world (store a (Volume (SynthCtx st)) (world st)) st)
  end.

Definition SYNTH_Mute (pObj : ptr) (enable : Z) (st : State) : Z * State :=
  let st1 := upd_ctx (set_Mute enable) st in
  let st2 :=
    match IO.Mute (SynthIO st1) with
    | Some f => snd (invoke (CallMute f enable) (f enable) st1)
    | None => st1
    end in
  (SYNTH_STATUS_OK, st2).

(** [SYNTH_DefaultTransmit]: the private dummy transmit function. *)
Definition SYNTH_DefaultTransmit (pData : ptr) (size : Z) (w : World)
  : Z * World :=
  (SYNTH_STATUS_ERROR, w).

(** ** Sequences of API calls

    One constructor per public function, carrying its arguments. *)

Inductive Op : Type :=
| OpRegisterBusIO (pObj : ptr) (pIO : option (IO.t HW))
| OpInit (pObj : ptr) (sample_rate channels : Z)
| OpDeInit (pObj : ptr)
| OpPlayBuffer (pObj : ptr) (buffer : ptr) (length : Z)
| OpStop (pObj : ptr)
| OpSetSampleRate (pObj : ptr) (sample_rate : Z)
| OpGetSampleRate (pObj : ptr) (sample_rate : ptr)
| OpSetVolume (pObj : ptr) (volume : Z)
| OpGetVolume (pObj : ptr) (volume : ptr)
| OpMute (pObj : ptr) (enable : Z).

Definition step (o : Op) (st : State) : Z * State :=
  match o with
  | OpRegisterBusIO pObj pIO => SYNTH_RegisterBusIO pObj pIO st
  | OpInit pObj sample_rate channels => SYNTH_Init pObj sample_rate channels st
  | OpDeInit pObj => SYNTH_DeInit pObj st
  | OpPlayBuffer pObj buffer length => SYNTH_PlayBuffer pObj buffer length st
  | OpStop pObj => SYNTH_Stop pObj st
  | OpSetSampleRate pObj sample_rate => SYNTH_SetSampleRate pObj sample_rate st
  | OpGetSampleRate pObj sample_rate => SYNTH_GetSampleRate pObj sample_rate st
  | OpSetVolume pObj volume => SYNTH_SetVolume pObj volume st
  | OpGetVolume pObj volume => SYNTH_GetVolume pObj volume st
  | OpMute pObj enable => SYNTH_Mute pObj enable st
  end.

(** The state after a sequence of calls made one after the other. *)
Fixpoint run (ops : list Op) (st : State) : State :=
  match ops with
  | [] => st
  | o :: ops' => run ops' (snd (step o st))
  end.

(** A call that replaces the registered table. *)
Definition registers (o : Op) : bool :=
  match o with
  | OpRegisterBusIO _ (Some _) => true
  | _ => false
  end.

(** The same call with another first argument. *)
Definition with_pObj (p : ptr) (o : Op) : Op :=
  match o with
  | OpRegisterBusIO _ pIO => OpRegisterBusIO p pIO
  | OpInit _ sample_rate channels => OpInit p sample_rate channels
  | OpDeInit _ => OpDeInit p
  | OpPlayBuffer _ buffer length => OpPlayBuffer p buffer length
  | OpStop _ => OpStop p
  | OpSetSampleRate _ sample_rate => OpSetSampleRate p sample_rate
  | OpGetSampleRate _ sample_rate => OpGetSampleRate p sample_rate
  | OpSetVolume _ volume => OpSetVolume p volume
  | OpGetVolume _ volume => OpGetVolume p volume
  | OpMute _ enable => OpMute p enable
  end.

(** ** Observations on the trace *)

(** The callee of the event is the one held in the matching slot of [io]. *)
Definition served_by (io : IO.t HW) (e : Event) : Prop :=
  match e with
  | CallInit f => IO.Init io = Some f
  | CallDeInit f => IO.DeInit io = Some f
  | CallTransmit f _ _ => IO.Transmit io = Some f
  | CallSetSampleRate f _ => IO.SetSampleRate io = Some f
  | CallMute f _ => IO.Mute io = Some f
  end.

(** The byte sizes handed to the transmit callback, oldest first. *)
Fixpoint transmit_sizes (l : list Event) : list Z :=
  match l with
  | [] => []
  | CallTransmit _ _ size :: l' => size :: transmit_sizes l'
  | _ :: l' => transmit_sizes l'
  end.

(** An operation is gated in [st] when it fails and leaves [st] as it was. *)
Definition gated (res : Z * State) (st : State) : Prop :=
  fst res <> SYNTH_STATUS_OK /\ snd res = st.

(** ** Ranges of the C types

    A call whose arguments lie in the ranges of their parameter types, as
    every call compiled against synth.h does. *)
Definition wf_op (o : Op) : Prop :=
  match o with
  | OpInit _ sample_rate channels => is_uint32 sample_rate /\ is_uint8 channels
  | OpPlayBuffer _ _ length => is_uint32 length
  | OpSetSampleRate _ sample_rate => is_uint32 sample_rate
  | OpSetVolume _ volume => is_uint8 volume
  | OpMute _ enable => is_uint8 enable
  | _ => True
  end.

(** A context whose fields lie in the ranges of their field types, with the
    volume on its 0-100 scale and the initialized flag 0 or 1. *)
Definition ctx_in_range (c : SYNTH_Ctx_t) : Prop :=
  is_uint32 (SampleRate c)
  /\ is_uint8 (Channels c)
  /\ 0 <= Volume c <= 100
  /\ is_uint8 (Mute c)
  /\ (Initialized c = 0 \/ Initialized c = 1).

(** A byte size the transmit callback can be handed for 16-bit samples. *)
Definition sample_bytes (size : Z) : Prop :=
  is_uint32 size /\ Z.even size = true.

End Driver.
Arguments Op : clear implicits.

(** ** A concrete board for closed examples

    The hardware state counts the bytes handed to the transmitter. *)

Definition board_Init (w : World Z) : Z * World Z := (0, w).
Definition board_Init_fails (w : World Z) : Z * World Z := (-1, w).
Definition board_DeInit (w : World Z) : Z * World Z := (0, w).
Definition board_Transmit (pData : ptr) (size : Z) (w : World Z) : Z * World Z :=
  (0, mkWorld (hw w + size) (mem w)).
Definition board_SetSampleRate (sample_rate : Z) (w : World Z) : Z * World Z :=
  (-1, w).
Definition board_Mute (enable : Z) (w : World Z) : Z * World Z := (0, w).

Definition board : IO.t Z :=
  IO.mk (Some board_Init) (Some board_DeInit) (Some board_Transmit)
        (Some board_SetSampleRate) None (Some board_Mute).

Definition broken_board : IO.t Z :=
  IO.mk (Some board_Init_fails) None (Some SYNTH_DefaultTransmit) None None None.

Definition world0 : World Z := mkWorld 0 ∅.

(** The state after [SYNTH_RegisterBusIO(NULL, &board)] at program start. *)
Definition registered : State Z :=
  snd (SYNTH_RegisterBusIO NULL (Some board) (boot world0)).

(** ... and after a following [SYNTH_Init(NULL, 48000, 2)]. *)
Definition ready : State Z :=
  snd (SYNTH_Init NULL 48000 2 registered).

(** ** Properties *)

Section Properties.
Context {HW : Type}.

Implicit Types (st : State HW) (w : World HW) (io : IO.t HW).
Implicit Types (pObj buffer : ptr) (e : Event HW).

(** *** Indirect calls *)

Lemma invoke_fst e (body : World HW -> Z * World HW) st :
  fst (invoke e body st) = fst (body (world st)).
Proof. unfold invoke. destruct (body (world st)); reflexivity. Qed.

Lemma invoke_snd e (body : World HW -> Z * World HW) st :
  snd (invoke e body st)
  = mkState (SynthIO st) (SynthCtx st) (snd (body (world st))) (calls st ++ [e]).
Proof. unfold invoke. destruct (body (world st)); reflexivity. Qed.

Lemma invoke_eta e (body : World HW -> Z * World HW) st :
  invoke e body st = (fst (invoke e body st), snd (invoke e body st)).
Proof. destruct (invoke e body st); reflexivity. Qed.

Lemma forwarded_frame {A : Type} (slot : option A) ev body st :
  SynthIO (forwarded slot ev body st) = SynthIO st
  /\ SynthCtx (forwarded slot ev body st) = SynthCtx st
  /\ calls (forwarded slot ev body st)
     = calls st ++ match slot with Some f => [ev f] | None => [] end.
Proof.
  destruct slot as [f|]; simpl.
  - rewrite invoke_snd. simpl. auto.
  - rewrite app_nil_r. auto.
Qed.

(** *** The functions, one equation each *)

Lemma SYNTH_DeInit_eq pObj st :
  SYNTH_DeInit pObj st
  = (SYNTH_STATUS_OK,
     set_ctx ctx_zero (forwarded (IO.DeInit (SynthIO st)) CallDeInit (fun f => f) st)).
Proof. reflexivity. Qed.

Lemma SYNTH_SetSampleRate_eq pObj sample_rate st :
  SYNTH_SetSampleRate pObj sample_rate st
  = (SYNTH_STATUS_OK,
     forwarded (IO.SetSampleRate (SynthIO st))
               (fun f => CallSetSampleRate f sample_rate) (fun f => f sample_rate)
               (upd_ctx (set_SampleRate sample_rate) st)).
Proof. reflexivity. Qed.

Lemma SYNTH_Mute_eq pObj enable st :
  SYNTH_Mute pObj enable st
  = (SYNTH_STATUS_OK,
     forwarded (IO.Mute (SynthIO st))
               (fun f => CallMute f enable) (fun f => f enable)
               (upd_ctx (set_Mute enable) st)).
Proof. reflexivity. Qed.

Lemma SYNTH_PlayBuffer_uninit pObj buffer length st :
  Initialized (SynthCtx st) = 0 ->
  SYNTH_PlayBuffer pObj buffer length st = (SYNTH_STATUS_ERROR, st).
Proof. intros H. unfold SYNTH_PlayBuffer. rewrite H. reflexivity. Qed.

Lemma SYNTH_PlayBuffer_no_transmit pObj buffer length st :
  Initialized (SynthCtx st) <> 0 ->
  IO.Transmit (SynthIO st) = None ->
  SYNTH_PlayBuffer pObj buffer length st = (SYNTH_STATUS_ERROR, st).
Proof.
  intros Hi Ht. unfold SYNTH_PlayBuffer.
  destruct (Z.eqb_spec (Initialized (SynthCtx st)) 0) as [E|_]; [contradiction|].
  rewrite Ht. reflexivity.
Qed.

Lemma SYNTH_PlayBuffer_transmit pObj buffer length st
      (transmit : ptr -> Z -> World HW -> Z * World HW) :
  Initialized (SynthCtx st) <> 0 ->
  IO.Transmit (SynthIO st) = Some transmit ->
  SYNTH_PlayBuffer pObj buffer length st
  = invoke (CallTransmit transmit buffer (to_uint32 (length * sizeof_int16_t)))
           (transmit buffer (to_uint32 (length * sizeof_int16_t))) st.
Proof.
  intros Hi Ht. unfold SYNTH_PlayBuffer.
  destruct (Z.eqb_spec (Initialized (SynthCtx st)) 0) as [E|_]; [contradiction|].
  rewrite Ht. reflexivity.
Qed.

Lemma store_lookup (a v : Z) w : mem (store a v w) !! a = Some v.
Proof. unfold store. simpl. apply lookup_insert_eq. Qed.


(** *** Effect of the operations that do not read the initialized flag *)

Tactic Notation "frame_forwarded" "as" simple_intropattern(k) :=
  match goal with
  | |- context [forwarded ?s ?ev ?b ?x] =>
    destruct (forwarded_frame s ev b x) as k
  end.

Lemma SYNTH_SetSampleRate_effect pObj sample_rate st :
  fst (SYNTH_SetSampleRate pObj sample_rate st) = SYNTH_STATUS_OK
  /\ SampleRate (SynthCtx (snd (SYNTH_SetSampleRate pObj sample_rate st)))
     = sample_rate
  /\ calls (snd (SYNTH_SetSampleRate pObj sample_rate st))
     = calls st ++ match IO.SetSampleRate (SynthIO st) with
                   | Some f => [CallSetSampleRate f sample_rate]
                   | None => []
                   end.
Proof.
  rewrite SYNTH_SetSampleRate_eq. simpl.
  frame_forwarded as (_ & Hc & Hl). rewrite Hc, Hl. auto.
Qed.

Lemma SYNTH_GetSampleRate_effect pObj (a : Z) st :
  fst (SYNTH_GetSampleRate pObj (Some a) st) = SYNTH_STATUS_OK
  /\ mem (world (snd (SYNTH_GetSampleRate pObj (Some a) st))) !! a
     = Some (SampleRate (SynthCtx st)).
Proof. split; [reflexivity | apply store_lookup]. Qed.

Lemma SYNTH_SetVolume_effect pObj volume st :
  fst (SYNTH_SetVolume pObj volume st) = SYNTH_STATUS_OK
  /\ Volume (SynthCtx (snd (SYNTH_SetVolume pObj volume st)))
     = Z.min volume 100.
Proof.
  split; [reflexivity|]. unfold SYNTH_SetVolume. simpl.
  destruct (Z.ltb_spec 100 volume); lia.
Qed.

Lemma SYNTH_GetVolume_effect pObj (a : Z) st :
  fst (SYNTH_GetVolume pObj (Some a) st) = SYNTH_STATUS_OK
  /\ mem (world (snd (SYNTH_GetVolume pObj (Some a) st))) !! a
     = Some (Volume (SynthCtx st)).
Proof. split; [reflexivity | apply store_lookup]. Qed.

Lemma SYNTH_Mute_effect pObj enable st :
  fst (SYNTH_Mute pObj enable st) = SYNTH_STATUS_OK
  /\ Mute (SynthCtx (snd (SYNTH_Mute pObj enable st))) = enable
  /\ calls (snd (SYNTH_Mute pObj enable st))
     = calls st ++ match IO.Mute (SynthIO st) with
                   | Some f => [CallMute f enable]
                   | None => []
                   end.
Proof.
  rewrite SYNTH_Mute_eq. simpl.
  frame_forwarded as (_ & Hc & Hl). rewrite Hc, Hl. auto.
Qed.

Lemma SYNTH_DeInit_effect pObj st :
  fst (SYNTH_DeInit pObj st) = SYNTH_STATUS_OK
  /\ SynthCtx (snd (SYNTH_DeInit pObj st)) = ctx_zero
  /\ SynthIO (snd (SYNTH_DeInit pObj st)) = SynthIO st
  /\ calls (snd (SYNTH_DeInit pObj st))
     = calls st ++ match IO.DeInit (SynthIO st) with
                   | Some f => [CallDeInit f]
                   | None => []
                   end.
Proof.
  rewrite SYNTH_DeInit_eq. simpl.
  frame_forwarded as (Hio & _ & Hl). rewrite Hio, Hl. auto.
Qed.

(** *** What the initialized flag gates *)

(** C1 (as amended).  With [Initialized = 0], only [SYNTH_PlayBuffer] is
    gated: it returns [SYNTH_STATUS_ERROR] and leaves the state as it was.
    [SYNTH_SetSampleRate], [SYNTH_GetSampleRate] and [SYNTH_GetVolume] (with a
    non-null output location), [SYNTH_SetVolume], [SYNTH_Mute], [SYNTH_Stop]
    and [SYNTH_DeInit] do not read the flag: each returns [SYNTH_STATUS_OK]
    and has its usual effect. *)
Theorem uninitialized_gates_only_PlayBuffer pObj st
        (Huninit : Initialized (SynthCtx st) = 0) :
  (forall buffer length, gated (SYNTH_PlayBuffer pObj buffer length st) st)
  /\ (forall sample_rate,
        fst (SYNTH_SetSampleRate pObj sample_rate st) = SYNTH_STATUS_OK
        /\ SampleRate (SynthCtx (snd (SYNTH_SetSampleRate pObj sample_rate st)))
           = sample_rate
        /\ calls (snd (SYNTH_SetSampleRate pObj sample_rate st))
           = calls st ++ match IO.SetSampleRate (SynthIO st) with
                         | Some f => [CallSetSampleRate f sample_rate]
                         | None => []
                         end)
  /\ (forall a : Z,
        fst (SYNTH_GetSampleRate pObj (Some a) st) = SYNTH_STATUS_OK
        /\ mem (world (snd (SYNTH_GetSampleRate pObj (Some a) st))) !! a
           = Some (SampleRate (SynthCtx st)))
  /\ (forall volume,
        fst (SYNTH_SetVolume pObj volume st) = SYNTH_STATUS_OK
        /\ Volume (SynthCtx (snd (SYNTH_SetVolume pObj volume st)))
           = Z.min volume 100)
  /\ (forall a : Z,
        fst (SYNTH_GetVolume pObj (Some a) st) = SYNTH_STATUS_OK
        /\ mem (world (snd (SYNTH_GetVolume pObj (Some a) st))) !! a
           = Some (Volume (SynthCtx st)))
  /\ (forall enable,
        fst (SYNTH_Mute pObj enable st) = SYNTH_STATUS_OK
        /\ Mute (SynthCtx (snd (SYNTH_Mute pObj enable st))) = enable
        /\ calls (snd (SYNTH_Mute pObj enable st))
           = calls st ++ match IO.Mute (SynthIO st) with
                         | Some f => [CallMute f enable]
                         | None => []
                         end)
  /\ SYNTH_Stop pObj st = (SYNTH_STATUS_OK, st)
  /\ (fst (SYNTH_DeInit pObj st) = SYNTH_STATUS_OK
      /\ SynthCtx (snd (SYNTH_DeInit pObj st)) = ctx_zero
      /\ calls (snd (SYNTH_DeInit pObj st))
         = calls st ++ match IO.DeInit (SynthIO st) with
                       | Some f => [CallDeInit f]
                       | None => []
                       end).
Proof.
  split; [| split; [| split; [| split; [| split; [| split; [| split]]]]]].
  - intros buffer length. rewrite SYNTH_PlayBuffer_uninit by assumption.
    split; [discriminate | reflexivity].
  - intros sample_rate. apply SYNTH_SetSampleRate_effect.
  - intros a. apply SYNTH_GetSampleRate_effect.
  - intros volume. apply SYNTH_SetVolume_effect.
  - intros a. apply SYNTH_GetVolume_effect.
  - intros enable. apply SYNTH_Mute_effect.
  - reflexivity.
  - destruct (SYNTH_DeInit_effect pObj st) as (H1 & H2 & _ & H3). auto.
Qed.

(** *** Playback *)

(** C2 (as amended).  On the successful path of [SYNTH_PlayBuffer] (context
    initialized, transmit slot non-null) the transmit callback is invoked
    exactly once, with the caller's buffer and the byte size
    [(length * 2) mod 2^32]; the function returns the callback's result
    unchanged and touches neither static.  The size is [length * 2] itself
    whenever [length < 2^31]. *)
Theorem PlayBuffer_forwards_wrapped_size pObj buffer (length : Z) st
        (transmit : ptr -> Z -> World HW -> Z * World HW)
        (Hlen : is_uint32 length)
        (Hinit : Initialized (SynthCtx st) <> 0)
        (Hslot : IO.Transmit (SynthIO st) = Some transmit) :
  let size := (length * 2) mod 2 ^ 32 in
  let res := SYNTH_PlayBuffer pObj buffer length st in
  fst res = fst (transmit buffer size (world st))
  /\ world (snd res) = snd (transmit buffer size (world st))
  /\ calls (snd res) = calls st ++ [CallTransmit transmit buffer size]
  /\ SynthCtx (snd res) = SynthCtx st
  /\ SynthIO (snd res) = SynthIO st
  /\ (length < 2 ^ 31 -> size = length * 2).
Proof.
  intros size res. subst res.
  rewrite (SYNTH_PlayBuffer_transmit pObj buffer length st transmit Hinit Hslot).
  rewrite invoke_fst, invoke_snd. simpl.
  change (to_uint32 (length * sizeof_int16_t)) with size.
  repeat split.
  intros Hsmall. subst size. destruct Hlen as [Hlo _].
  apply Z.mod_small. lia.
Qed.

(** C7 (as amended).  [SYNTH_PlayBuffer] before a successful init returns
    [SYNTH_STATUS_ERROR] and does nothing; once initialized, with the
    transmit slot null, it returns [SYNTH_STATUS_ERROR] and does nothing.
    [SYNTH_Stop], the other playback function, is not gated: it returns
    [SYNTH_STATUS_OK] whatever the state. *)
Theorem PlayBuffer_not_ready_or_no_transmit pObj buffer length st
        (Hcase : Initialized (SynthCtx st) = 0
                 \/ IO.Transmit (SynthIO st) = None) :
  SYNTH_PlayBuffer pObj buffer length st = (SYNTH_STATUS_ERROR, st)
  /\ SYNTH_Stop pObj st = (SYNTH_STATUS_OK, st).
Proof.
  split; [|reflexivity].
  destruct (Z.eq_dec (Initialized (SynthCtx st)) 0) as [E|NE].
  - apply SYNTH_PlayBuffer_uninit; assumption.
  - destruct Hcase as [E|Ht]; [contradiction|].
    apply SYNTH_PlayBuffer_no_transmit; assumption.
Qed.

(** C9.  [SYNTH_Stop] returns [SYNTH_STATUS_OK] in every state and leaves
    the context, the registered table, the world and the trace as they
    were. *)
Theorem Stop_is_a_no_op pObj st :
  fst (SYNTH_Stop pObj st) = SYNTH_STATUS_OK
  /\ snd (SYNTH_Stop pObj st) = st.
Proof. split; reflexivity. Qed.

(** *** Initialisation *)

Lemma SYNTH_Init_no_slot pObj sample_rate channels st :
  IO.Init (SynthIO st) = None ->
  SYNTH_Init pObj sample_rate channels st = (SYNTH_STATUS_ERROR, st).
Proof. intros H. unfold SYNTH_Init. rewrite H. reflexivity. Qed.

Lemma SYNTH_Init_fails pObj sample_rate channels st
      (init : World HW -> Z * World HW) :
  IO.Init (SynthIO st) = Some init ->
  fst (init (world st)) <> 0 ->
  SYNTH_Init pObj sample_rate channels st
  = (SYNTH_STATUS_ERROR,
     mkState (SynthIO st) (SynthCtx st) (snd (init (world st)))
             (calls st ++ [CallInit init])).
Proof.
  intros Hslot Hr. unfold SYNTH_Init, invoke. rewrite Hslot.
  destruct (init (world st)) as [r w1]. simpl in *.
  destruct (Z.eqb_spec r 0); [contradiction | reflexivity].
Qed.

Lemma SYNTH_Init_succeeds pObj sample_rate channels st
      (init : World HW -> Z * World HW) :
  IO.Init (SynthIO st) = Some init ->
  fst (init (world st)) = 0 ->
  SYNTH_Init pObj sample_rate channels st
  = (SYNTH_STATUS_OK,
     forwarded (IO.SetSampleRate (SynthIO st))
               (fun f => CallSetSampleRate f sample_rate) (fun f => f sample_rate)
               (mkState (SynthIO st)
                        (mkCtx sample_rate channels SYNTH_DEFAULT_VOLUME 0 1)
                        (snd (init (world st)))
                        (calls st ++ [CallInit init]))).
Proof.
  intros Hslot Hr. unfold SYNTH_Init, invoke. rewrite Hslot.
  destruct (init (world st)) as [r w1]. simpl in *. subst r. reflexivity.
Qed.

(** C3.  When the registered init callback returns a non-zero result,
    [SYNTH_Init] returns [SYNTH_STATUS_ERROR] and no field of the context is
    modified (nor is the registered table); the only call made is the one to
    the init callback.  A following [SYNTH_GetSampleRate] stores the sample
    rate the context held before the attempt. *)
Theorem Init_failure_leaves_context pObj sample_rate channels st
        (init : World HW -> Z * World HW)
        (Hslot : IO.Init (SynthIO st) = Some init)
        (Hfail : fst (init (world st)) <> 0) :
  let res := SYNTH_Init pObj sample_rate channels st in
  fst res = SYNTH_STATUS_ERROR
  /\ SynthCtx (snd res) = SynthCtx st
  /\ SynthIO (snd res) = SynthIO st
  /\ calls (snd res) = calls st ++ [CallInit init]
  /\ forall pObj' (a : Z),
       fst (SYNTH_GetSampleRate pObj' (Some a) (snd res)) = SYNTH_STATUS_OK
       /\ mem (world (snd (SYNTH_GetSampleRate pObj' (Some a) (snd res)))) !! a
          = Some (SampleRate (SynthCtx st)).
Proof.
  intros res. subst res.
  rewrite (SYNTH_Init_fails pObj sample_rate channels st init Hslot Hfail).
  simpl. repeat split. apply store_lookup.
Qed.

(** C4.  When the registered init callback is present and returns 0,
    [SYNTH_Init] returns [SYNTH_STATUS_OK] and the context holds the given
    sample rate and channel count, volume 75, mute 0 and initialized 1.  The
    init callback is called first; if the set-sample-rate slot is non-null it
    is then called once with the given rate, and whatever it returns the
    status is still [SYNTH_STATUS_OK]. *)
Theorem Init_success_populates_context pObj sample_rate channels st
        (init : World HW -> Z * World HW)
        (Hslot : IO.Init (SynthIO st) = Some init)
        (Hok : fst (init (world st)) = 0) :
  let res := SYNTH_Init pObj sample_rate channels st in
  fst res = SYNTH_STATUS_OK
  /\ SynthCtx (snd res) = mkCtx sample_rate channels 75 0 1
  /\ SynthIO (snd res) = SynthIO st
  /\ calls (snd res)
     = calls st ++ CallInit init
                :: match IO.SetSampleRate (SynthIO st) with
                   | Some f => [CallSetSampleRate f sample_rate]
                   | None => []
                   end
  /\ world (snd res)
     = match IO.SetSampleRate (SynthIO st) with
       | Some f => snd (f sample_rate (snd (init (world st))))
       | None => snd (init (world st))
       end.
Proof.
  intros res. subst res.
  rewrite (SYNTH_Init_succeeds pObj sample_rate channels st init Hslot Hok).
  simpl. frame_forwarded as (Hio & Hc & Hl). rewrite Hio, Hc, Hl. simpl.
  rewrite <- app_assoc. simpl. repeat split.
  destruct (IO.SetSampleRate (SynthIO st)) as [f|]; simpl; [|reflexivity].
  rewrite invoke_snd. reflexivity.
Qed.

(** *** What one call does to the statics and to the trace *)

(** Every call leaves the context untouched, zeroes it, populates it as
    [SYNTH_Init] does, or overwrites one of the sample rate, a clamped
    volume and the mute flag. *)
Lemma step_ctx (o : Op HW) st :
  let c := SynthCtx st in
  let c' := SynthCtx (snd (step o st)) in
  c' = c \/ c' = ctx_zero
  \/ (exists sample_rate channels,
        c' = mkCtx sample_rate channels SYNTH_DEFAULT_VOLUME 0 1)
  \/ (exists v, c' = set_SampleRate v c)
  \/ (exists v, c' = set_Volume (Z.min v 100) c)
  \/ (exists v, c' = set_Mute v c).
Proof.
  intros c c'. subst c c'. destruct o as [p pIO|p sr ch|p|p buf len|p|p sr|p out|p v|p out|p en]; cbn [step].
  - destruct pIO; simpl; auto.
  - destruct (IO.Init (SynthIO st)) as [init|] eqn:Hslot.
    + destruct (Z.eq_dec (fst (init (world st))) 0) as [Hr|Hr].
      * rewrite (SYNTH_Init_succeeds _ _ _ _ _ Hslot Hr). simpl.
        frame_forwarded as (_ & Hc & _). rewrite Hc. simpl.
        right; right; left. eauto.
      * rewrite (SYNTH_Init_fails _ _ _ _ _ Hslot Hr). simpl. auto.
    + rewrite SYNTH_Init_no_slot by assumption. auto.
  - destruct (SYNTH_DeInit_effect p st) as (_ & Hc & _). auto.
  - destruct (Z.eq_dec (Initialized (SynthCtx st)) 0) as [Hi|Hi].
    + rewrite SYNTH_PlayBuffer_uninit by assumption. auto.
    + destruct (IO.Transmit (SynthIO st)) as [transmit|] eqn:Hslot.
      * rewrite (SYNTH_PlayBuffer_transmit _ _ _ _ _ Hi Hslot).
        rewrite invoke_snd. auto.
      * rewrite SYNTH_PlayBuffer_no_transmit by assumption. auto.
  - auto.
  - rewrite SYNTH_SetSampleRate_eq. simpl.
    frame_forwarded as (_ & Hc & _). rewrite Hc. simpl.
    right; right; right; left. eauto.
  - destruct out; simpl; auto.
  - right; right; right; right; left. exists v.
    destruct (SYNTH_SetVolume_effect p v st) as [_ Hv].
    unfold SYNTH_SetVolume in *. simpl in *. unfold set_Volume.
    f_equal. exact Hv.
  - destruct out; simpl; auto.
  - rewrite SYNTH_Mute_eq. simpl.
    frame_forwarded as (_ & Hc & _). rewrite Hc. simpl.
    right; right; right; right; right. eauto.
Qed.

Lemma step_Volume_le (o : Op HW) st :
  Volume (SynthCtx st) <= 100 -> Volume (SynthCtx (snd (step o st))) <= 100.
Proof.
  intros H.
  destruct (step_ctx o st)
    as [E|[E|[(s & c & E)|[(v & E)|[(v & E)|(v & E)]]]]];
    rewrite E; simpl; unfold SYNTH_DEFAULT_VOLUME; lia.
Qed.

Lemma run_Volume_le (ops : list (Op HW)) st :
  Volume (SynthCtx st) <= 100 -> Volume (SynthCtx (run ops st)) <= 100.
Proof.
  revert st. induction ops as [|o ops IH]; intros st H; simpl.
  - exact H.
  - apply IH, step_Volume_le, H.
Qed.

(** Every call appends to the trace only calls to callees held in the table
    at the time of the call, and only a registration replaces the table. *)
Lemma step_calls (o : Op HW) st :
  (registers o = false -> SynthIO (snd (step o st)) = SynthIO st)
  /\ exists new, calls (snd (step o st)) = calls st ++ new
                 /\ Forall (served_by (SynthIO st)) new.
Proof.
  destruct o as [p pIO|p sr ch|p|p buf len|p|p sr|p out|p v|p out|p en]; cbn [step].
  - split.
    + destruct pIO; simpl; [discriminate | reflexivity].
    + exists []. rewrite app_nil_r.
      split; [destruct pIO; reflexivity | constructor].
  - destruct (IO.Init (SynthIO st)) as [init|] eqn:Hslot.
    + destruct (Z.eq_dec (fst (init (world st))) 0) as [Hr|Hr].
      * rewrite (SYNTH_Init_succeeds _ _ _ _ _ Hslot Hr). simpl.
        frame_forwarded as (Hio & _ & Hl). rewrite Hio, Hl. simpl.
        split; [reflexivity|]. rewrite <- app_assoc. eexists. split; [reflexivity|].
        constructor; [exact Hslot|].
        destruct (IO.SetSampleRate (SynthIO st)) eqn:E; repeat constructor.
        exact E.
      * rewrite (SYNTH_Init_fails _ _ _ _ _ Hslot Hr). simpl.
        split; [reflexivity|]. eexists. split; [reflexivity|].
        repeat constructor. exact Hslot.
    + rewrite SYNTH_Init_no_slot by assumption. simpl.
      split; [reflexivity|]. exists []. rewrite app_nil_r. split; [reflexivity | constructor].
  - destruct (SYNTH_DeInit_effect p st) as (_ & _ & Hio & Hl).
    split; [intros _; exact Hio|]. eexists. split; [exact Hl|].
    destruct (IO.DeInit (SynthIO st)) eqn:E; repeat constructor. exact E.
  - destruct (Z.eq_dec (Initialized (SynthCtx st)) 0) as [Hi|Hi].
    + rewrite SYNTH_PlayBuffer_uninit by assumption. simpl.
      split; [reflexivity|]. exists []. rewrite app_nil_r. split; [reflexivity | constructor].
    + destruct (IO.Transmit (SynthIO st)) as [transmit|] eqn:Hslot.
      * rewrite (SYNTH_PlayBuffer_transmit _ _ _ _ _ Hi Hslot).
        rewrite invoke_snd. simpl.
        split; [reflexivity|]. eexists. split; [reflexivity|].
        repeat constructor. exact Hslot.
      * rewrite SYNTH_PlayBuffer_no_transmit by assumption. simpl.
        split; [reflexivity|]. exists []. rewrite app_nil_r. split; [reflexivity | constructor].
  - split; [reflexivity|]. exists []. rewrite app_nil_r. split; [reflexivity | constructor].
  - rewrite SYNTH_SetSampleRate_eq. simpl.
    frame_forwarded as (Hio & _ & Hl). rewrite Hio, Hl. simpl.
    split; [reflexivity|]. eexists. split; [reflexivity|].
    destruct (IO.SetSampleRate (SynthIO st)) eqn:E; repeat constructor. exact E.
  - split; [destruct out; reflexivity|].
    exists []. rewrite app_nil_r.
    split; [destruct out; reflexivity | constructor].
  - split; [reflexivity|]. exists []. rewrite app_nil_r. split; [reflexivity | constructor].
  - split; [destruct out; reflexivity|].
    exists []. rewrite app_nil_r.
    split; [destruct out; reflexivity | constructor].
  - rewrite SYNTH_Mute_eq. simpl.
    frame_forwarded as (Hio & _ & Hl). rewrite Hio, Hl. simpl.
    split; [reflexivity|]. eexists. split; [reflexivity|].
    destruct (IO.Mute (SynthIO st)) eqn:E; repeat constructor. exact E.
Qed.

Lemma run_calls (ops : list (Op HW)) st :
  Forall (fun o => registers o = false) ops ->
  SynthIO (run ops st) = SynthIO st
  /\ exists new, calls (run ops st) = calls st ++ new
                 /\ Forall (served_by (SynthIO st)) new.
Proof.
  intros Hops. revert st.
  induction Hops as [|o ops Ho _ IH]; intros st; simpl.
  - split; [reflexivity|]. exists []. rewrite app_nil_r. split; [reflexivity | constructor].
  - destruct (step_calls o st) as (Hio & new1 & Hl1 & Hs1).
    specialize (Hio Ho).
    destruct (IH (snd (step o st))) as (Hio2 & new2 & Hl2 & Hs2).
    rewrite Hio in Hio2, Hs2.
    split; [exact Hio2|]. exists (new1 ++ new2).
    rewrite Hl2, Hl1, app_assoc. split; [reflexivity|].
    apply Forall_app. auto.
Qed.

(** *** Volume *)

(** C5.  For every input [v], [SYNTH_SetVolume] returns [SYNTH_STATUS_OK]
    and a following [SYNTH_GetVolume] (with a non-null output location)
    returns [SYNTH_STATUS_OK] and stores [min v 100]: [v] itself when
    [v <= 100], and 100 when [v > 100].  In every state reached from program
    start by any sequence of calls the stored volume is at most 100. *)
Theorem SetVolume_GetVolume_clamp pObj pObj' (v a : Z) st :
  let r1 := SYNTH_SetVolume pObj v st in
  let r2 := SYNTH_GetVolume pObj' (Some a) (snd r1) in
  fst r1 = SYNTH_STATUS_OK
  /\ fst r2 = SYNTH_STATUS_OK
  /\ mem (world (snd r2)) !! a = Some (Z.min v 100)
  /\ (v <= 100 -> mem (world (snd r2)) !! a = Some v)
  /\ (100 < v -> mem (world (snd r2)) !! a = Some 100)
  /\ forall (ops : list (Op HW)) w,
       Volume (SynthCtx (run ops (boot w))) <= 100.
Proof.
  intros r1 r2.
  destruct (SYNTH_SetVolume_effect pObj v st) as [H1 Hv].
  destruct (SYNTH_GetVolume_effect pObj' a (snd r1)) as [H2 Hm].
  fold r2 in H2, Hm. subst r1. rewrite Hv in Hm.
  split; [exact H1|]. split; [exact H2|]. split; [exact Hm|].
  split; [|split].
  - intros Hle. rewrite Hm. f_equal. lia.
  - intros Hgt. rewrite Hm. f_equal. lia.
  - intros ops w. apply run_Volume_le. simpl. lia.
Qed.

(** *** Deinitialisation *)

(** C6.  [SYNTH_DeInit] returns [SYNTH_STATUS_OK] in every state and leaves
    every field of the context zero, the initialized flag included.  Called
    twice in a row it succeeds both times, and the context and the registered
    table after the second call are those after the first. *)
Theorem DeInit_zeroes_and_is_idempotent pObj pObj' st :
  let r1 := SYNTH_DeInit pObj st in
  let r2 := SYNTH_DeInit pObj' (snd r1) in
  fst r1 = SYNTH_STATUS_OK
  /\ SynthCtx (snd r1) = mkCtx 0 0 0 0 0
  /\ Initialized (SynthCtx (snd r1)) = 0
  /\ fst r2 = SYNTH_STATUS_OK
  /\ SynthCtx (snd r2) = SynthCtx (snd r1)
  /\ SynthIO (snd r2) = SynthIO (snd r1).
Proof.
  intros r1 r2.
  destruct (SYNTH_DeInit_effect pObj st) as (H1 & Hc1 & _ & _).
  destruct (SYNTH_DeInit_effect pObj' (snd r1)) as (H2 & Hc2 & Hio2 & _).
  fold r1 in H1, Hc1. fold r2 in H2, Hc2, Hio2.
  rewrite Hc2, Hc1. repeat split; assumption.
Qed.

(** *** Registration *)

(** C8.  [SYNTH_RegisterBusIO] returns [SYNTH_STATUS_ERROR] exactly when the
    table pointer is null, and then changes nothing; otherwise it returns
    [SYNTH_STATUS_OK] and the slot holds a copy of the whole table.
    Registering [B2] after [B1] gives the very state that registering [B2]
    alone gives, and in any sequence of later calls that does not register
    again, every callback invoked is one held in [B2]. *)
Theorem RegisterBusIO_replaces_wholesale pObj1 pObj2 (B1 B2 : IO.t HW) st
        (ops : list (Op HW))
        (Hops : Forall (fun o => registers o = false) ops) :
  let st1 := snd (SYNTH_RegisterBusIO pObj1 (Some B1) st) in
  let st2 := snd (SYNTH_RegisterBusIO pObj2 (Some B2) st1) in
  (forall pObj (pIO : option (IO.t HW)) (s : State HW),
      fst (SYNTH_RegisterBusIO pObj pIO s) = SYNTH_STATUS_ERROR <-> pIO = None)
  /\ (forall pObj (s : State HW),
         SYNTH_RegisterBusIO pObj None s = (SYNTH_STATUS_ERROR, s))
  /\ (forall pObj io (s : State HW),
         fst (SYNTH_RegisterBusIO pObj (Some io) s) = SYNTH_STATUS_OK
         /\ SynthIO (snd (SYNTH_RegisterBusIO pObj (Some io) s)) = io
         /\ SynthCtx (snd (SYNTH_RegisterBusIO pObj (Some io) s)) = SynthCtx s)
  /\ st2 = snd (SYNTH_RegisterBusIO pObj2 (Some B2) st)
  /\ SynthIO (run ops st2) = B2
  /\ exists new, calls (run ops st2) = calls st ++ new
                 /\ Forall (served_by B2) new.
Proof.
  intros st1 st2.
  split; [|split; [|split; [|split]]].
  - intros p pIO s. unfold SYNTH_STATUS_OK, SYNTH_STATUS_ERROR.
    destruct pIO; simpl; split; intros H; try reflexivity; discriminate H.
  - reflexivity.
  - intros p io s. simpl. auto.
  - reflexivity.
  - destruct (run_calls ops st2 Hops) as (Hio & new & Hl & Hs).
    split; [exact Hio|]. exists new. split; [exact Hl | exact Hs].
Qed.

(** *** The first argument *)

Lemma step_with_pObj (p1 p2 : ptr) (o : Op HW) st :
  step (with_pObj p1 o) st = step (with_pObj p2 o) st.
Proof. destruct o; reflexivity. Qed.

(** C10.  No public function uses its first argument: with any two values
    of [pObj], null or not, and the same remaining arguments and starting
    state, each returns the same status and the same state (context,
    registered table, world and trace), and so does any sequence of calls. *)
Theorem pObj_is_ignored (p1 p2 : ptr) st :
  (forall pIO, SYNTH_RegisterBusIO p1 pIO st = SYNTH_RegisterBusIO p2 pIO st)
  /\ (forall sample_rate channels,
         SYNTH_Init p1 sample_rate channels st
         = SYNTH_Init p2 sample_rate channels st)
  /\ SYNTH_DeInit p1 st = SYNTH_DeInit p2 st
  /\ (forall buffer length,
         SYNTH_PlayBuffer p1 buffer length st
         = SYNTH_PlayBuffer p2 buffer length st)
  /\ SYNTH_Stop p1 st = SYNTH_Stop p2 st
  /\ (forall sample_rate,
         SYNTH_SetSampleRate p1 sample_rate st
         = SYNTH_SetSampleRate p2 sample_rate st)
  /\ (forall sample_rate : ptr,
         SYNTH_GetSampleRate p1 sample_rate st
         = SYNTH_GetSampleRate p2 sample_rate st)
  /\ (forall volume,
         SYNTH_SetVolume p1 volume st = SYNTH_SetVolume p2 volume st)
  /\ (forall volume : ptr,
         SYNTH_GetVolume p1 volume st = SYNTH_GetVolume p2 volume st)
  /\ (forall enable, SYNTH_Mute p1 enable st = SYNTH_Mute p2 enable st)
  /\ (forall ops : list (Op HW),
         run (map (with_pObj p1) ops) st = run (map (with_pObj p2) ops) st).
Proof.
  repeat (split; [reflexivity|]).
  intros ops. revert st. induction ops as [|o ops IH]; intros st.
  - reflexivity.
  - cbn [map run]. rewrite (step_with_pObj p1 p2 o st). apply IH.
Qed.

End Properties.

(** ** Closed instances on the concrete board *)

(** The context is still zero after registration alone: [SYNTH_SetVolume]
    then succeeds and stores, [SYNTH_Mute] forwards to the board, and only
    [SYNTH_PlayBuffer] is refused. *)
Lemma uninitialized_gates_only_PlayBuffer_witness :
  Initialized (SynthCtx registered) = 0
  /\ gated (SYNTH_PlayBuffer NULL (Some 4096) 256 registered) registered
  /\ fst (SYNTH_SetVolume NULL 50 registered) = SYNTH_STATUS_OK
  /\ Volume (SynthCtx (snd (SYNTH_SetVolume NULL 50 registered))) = 50
  /\ calls (snd (SYNTH_Mute NULL 1 registered)) = [CallMute board_Mute 1]
  /\ SynthCtx (snd (SYNTH_DeInit NULL registered)) = ctx_zero.
Proof.
  split; [reflexivity|].
  destruct (uninitialized_gates_only_PlayBuffer NULL registered eq_refl)
    as (Hplay & _ & _ & Hvol & _ & Hmute & _ & Hdeinit).
  split; [exact (Hplay (Some 4096) 256)|].
  destruct (Hvol 50) as [Hv1 Hv2].
  destruct (Hmute 1) as (_ & _ & Hm).
  destruct Hdeinit as (_ & Hd & _).
  split; [exact Hv1|]. split; [exact Hv2|]. split; [exact Hm | exact Hd].
Defined.

(** [SYNTH_SetVolume] on the zeroed context at program start is not gated. *)
Lemma SetVolume_before_init_counterexample :
  Initialized (SynthCtx (boot world0)) = 0
  /\ ~ gated (SYNTH_SetVolume NULL 50 (boot world0)) (boot world0)
  /\ fst (SYNTH_SetVolume NULL 50 (boot world0)) = SYNTH_STATUS_OK
  /\ Volume (SynthCtx (boot world0)) = 0
  /\ Volume (SynthCtx (snd (SYNTH_SetVolume NULL 50 (boot world0)))) = 50.
Proof.
  split; [reflexivity|]. split; [|repeat split].
  intros [Hstatus _]. apply Hstatus. reflexivity.
Qed.

(** 256 samples on the initialized board: one transmit call of 512 bytes,
    whose result 0 is returned. *)
Lemma PlayBuffer_forwards_wrapped_size_witness :
  is_uint32 256
  /\ Initialized (SynthCtx ready) <> 0
  /\ IO.Transmit (SynthIO ready) = Some board_Transmit
  /\ fst (SYNTH_PlayBuffer NULL (Some 4096) 256 ready) = 0
  /\ calls (snd (SYNTH_PlayBuffer NULL (Some 4096) 256 ready))
     = calls ready ++ [CallTransmit board_Transmit (Some 4096) 512]
  /\ hw (world (snd (SYNTH_PlayBuffer NULL (Some 4096) 256 ready))) = 512.
Proof.
  assert (Hlen : is_uint32 256) by (unfold is_uint32; lia).
  assert (Hinit : Initialized (SynthCtx ready) <> 0) by (simpl; lia).
  split; [exact Hlen|]. split; [exact Hinit|]. split; [reflexivity|].
  pose proof (PlayBuffer_forwards_wrapped_size
                NULL (Some 4096) 256 ready board_Transmit Hlen Hinit eq_refl) as H.
  cbv zeta in H. destruct H as (Hr & Hw & Hc & _).
  split; [exact Hr|]. split; [exact Hc|]. rewrite Hw. reflexivity.
Defined.

(** 2^31 samples: the byte size handed to the board is 0, not 2^32. *)
Lemma PlayBuffer_size_counterexample :
  is_uint32 (2 ^ 31)
  /\ Initialized (SynthCtx ready) <> 0
  /\ IO.Transmit (SynthIO ready) = Some board_Transmit
  /\ transmit_sizes (calls (snd (SYNTH_PlayBuffer NULL (Some 4096) (2 ^ 31) ready)))
     = [0]
  /\ 0 <> 2 ^ 31 * 2.
Proof.
  split; [unfold is_uint32; lia|]. split; [simpl; lia|].
  split; [reflexivity|]. split; [reflexivity | lia].
Qed.

(** A board whose init fails, after the rate was set to 44100: the failed
    [SYNTH_Init(48000, 2)] leaves 44100 in place. *)
Lemma Init_failure_leaves_context_witness :
  let st := run [OpSetSampleRate NULL 44100;
                 OpRegisterBusIO NULL (Some broken_board)] (boot world0) in
  IO.Init (SynthIO st) = Some board_Init_fails
  /\ fst (board_Init_fails (world st)) <> 0
  /\ fst (SYNTH_Init NULL 48000 2 st) = SYNTH_STATUS_ERROR
  /\ SynthCtx (snd (SYNTH_Init NULL 48000 2 st)) = mkCtx 44100 0 0 0 0
  /\ mem (world (snd (SYNTH_GetSampleRate NULL (Some 8)
                        (snd (SYNTH_Init NULL 48000 2 st))))) !! 8
     = Some 44100.
Proof.
  intros st.
  assert (Hfail : fst (board_Init_fails (world st)) <> 0) by (simpl; lia).
  split; [reflexivity|]. split; [exact Hfail|].
  pose proof (Init_failure_leaves_context
                NULL 48000 2 st board_Init_fails eq_refl Hfail) as H.
  cbv zeta in H. destruct H as (Hr & Hc & _ & _ & Hget).
  split; [exact Hr|]. split; [exact Hc|]. exact (proj2 (Hget NULL 8)).
Defined.

(** The board's init returns 0 and its set-sample-rate callback returns -1:
    [SYNTH_Init(48000, 2)] still succeeds. *)
Lemma Init_success_populates_context_witness :
  IO.Init (SynthIO registered) = Some board_Init
  /\ fst (board_Init (world registered)) = 0
  /\ fst (SYNTH_Init NULL 48000 2 registered) = SYNTH_STATUS_OK
  /\ SynthCtx (snd (SYNTH_Init NULL 48000 2 registered)) = mkCtx 48000 2 75 0 1
  /\ calls (snd (SYNTH_Init NULL 48000 2 registered))
     = [CallInit board_Init; CallSetSampleRate board_SetSampleRate 48000].
Proof.
  split; [reflexivity|]. split; [reflexivity|].
  pose proof (Init_success_populates_context
                NULL 48000 2 registered board_Init eq_refl eq_refl) as H.
  cbv zeta in H. destruct H as (Hr & Hc & _ & Hl & _).
  split; [exact Hr|]. split; [exact Hc | exact Hl].
Defined.

(** Volume 200 reads back as 100, volume 40 as 40. *)
Lemma SetVolume_GetVolume_clamp_witness :
  mem (world (snd (SYNTH_GetVolume NULL (Some 8)
                     (snd (SYNTH_SetVolume NULL 200 ready))))) !! 8 = Some 100
  /\ mem (world (snd (SYNTH_GetVolume NULL (Some 8)
                        (snd (SYNTH_SetVolume NULL 40 ready))))) !! 8 = Some 40.
Proof.
  split.
  - pose proof (SetVolume_GetVolume_clamp NULL NULL 200 8 ready) as H.
    cbv zeta in H. destruct H as (_ & _ & _ & _ & Hgt & _).
    apply Hgt. lia.
  - pose proof (SetVolume_GetVolume_clamp NULL NULL 40 8 ready) as H.
    cbv zeta in H. destruct H as (_ & _ & _ & Hle & _).
    apply Hle. lia.
Defined.

(** [SYNTH_PlayBuffer] is refused at program start, and on an initialized
    context whose table has no transmit callback. *)
Lemma PlayBuffer_not_ready_or_no_transmit_witness :
  let st := run [OpRegisterBusIO NULL
                   (Some (IO.mk (Some board_Init) None None None None None));
                 OpInit NULL 48000 2] (boot world0) in
  Initialized (SynthCtx (boot world0)) = 0
  /\ SYNTH_PlayBuffer NULL (Some 4096) 256 (boot world0)
     = (SYNTH_STATUS_ERROR, boot world0)
  /\ Initialized (SynthCtx st) = 1
  /\ IO.Transmit (SynthIO st) = None
  /\ SYNTH_PlayBuffer NULL (Some 4096) 256 st = (SYNTH_STATUS_ERROR, st).
Proof.
  intros st.
  split; [reflexivity|].
  split; [exact (proj1 (PlayBuffer_not_ready_or_no_transmit
                          NULL (Some 4096) 256 (boot world0)
                          (or_introl eq_refl)))|].
  split; [reflexivity|]. split; [reflexivity|].
  exact (proj1 (PlayBuffer_not_ready_or_no_transmit
                  NULL (Some 4096) 256 st (or_intror eq_refl))).
Defined.

(** [SYNTH_Stop] at program start returns OK, not the error status. *)
Lemma Stop_before_init_counterexample :
  Initialized (SynthCtx (boot world0)) = 0
  /\ fst (SYNTH_Stop NULL (boot world0)) = SYNTH_STATUS_OK
  /\ fst (SYNTH_Stop NULL (boot world0)) <> SYNTH_STATUS_ERROR.
Proof. split; [reflexivity|]. split; [reflexivity | discriminate]. Qed.

(** The broken board, then the working one, then init, play and mute: the
    three callbacks invoked are the working board's. *)
Lemma RegisterBusIO_replaces_wholesale_witness :
  let ops := [OpInit NULL 48000 2; OpPlayBuffer NULL (Some 4096) 256;
              OpMute NULL 1] in
  let st2 := run [OpRegisterBusIO NULL (Some broken_board);
                  OpRegisterBusIO NULL (Some board)] (boot world0) in
  Forall (fun o => registers o = false) ops
  /\ st2 = registered
  /\ SynthIO (run ops st2) = board
  /\ exists new, calls (run ops st2) = new /\ Forall (served_by board) new.
Proof.
  intros ops st2.
  assert (Hops : Forall (fun o => registers o = false) ops)
    by (repeat constructor).
  split; [exact Hops|].
  pose proof (RegisterBusIO_replaces_wholesale
                NULL NULL broken_board board (boot world0) ops Hops) as H.
  cbv zeta in H. destruct H as (_ & _ & _ & Heq & Hio & new & Hl & Hs).
  split; [exact Heq|]. split; [exact Hio|].
  exists new. split; [exact Hl | exact Hs].
Defined.

(** ** Further properties of the driver *)

Section Lifecycle.
Context {HW : Type}.

Tactic Notation "frame_forwarded" "as" simple_intropattern(k) :=
  match goal with
  | |- context [forwarded ?s ?ev ?b ?x] =>
    destruct (forwarded_frame s ev b x) as k
  end.

Implicit Types (st : State HW) (w : World HW) (io : IO.t HW).
Implicit Types (pObj buffer : ptr) (e : Event HW).

(** What one call does to the context and which calls it logs, per
    function. *)
Lemma step_shape (o : Op HW) st :
  exists new,
    calls (snd (step o st)) = calls st ++ new
    /\ let c := SynthCtx st in
       let c' := SynthCtx (snd (step o st)) in
       match o with
       | OpInit _ sample_rate channels =>
         (c' = c /\ fst (step o st) = SYNTH_STATUS_ERROR)
         \/ (c' = mkCtx sample_rate channels SYNTH_DEFAULT_VOLUME 0 1
             /\ exists f rest, new = CallInit f :: rest)
       | OpDeInit _ => c' = ctx_zero
       | OpPlayBuffer _ buffer length =>
         c' = c
         /\ (new = []
             \/ exists f,
                  new = [CallTransmit f buffer (to_uint32 (length * sizeof_int16_t))])
       | OpSetSampleRate _ sample_rate => c' = set_SampleRate sample_rate c
       | OpSetVolume _ volume => c' = set_Volume (Z.min volume 100) c /\ new = []
       | OpMute _ enable => c' = set_Mute enable c
       | _ => c' = c /\ new = []
       end.
Proof.
  destruct o as [p pIO|p sr ch|p|p buf len|p|p sr|p out|p v|p out|p en];
    cbn [step]; cbv zeta.
  - exists []. rewrite app_nil_r. destruct pIO; simpl; auto.
  - destruct (IO.Init (SynthIO st)) as [init|] eqn:Hslot.
    + destruct (Z.eq_dec (fst (init (world st))) 0) as [Hr|Hr].
      * rewrite (SYNTH_Init_succeeds _ _ _ _ _ Hslot Hr). simpl.
        frame_forwarded as (_ & Hc & Hl). rewrite Hc, Hl. simpl.
        rewrite <- app_assoc. eexists. split; [reflexivity|].
        right. split; [reflexivity|]. simpl. eauto.
      * rewrite (SYNTH_Init_fails _ _ _ _ _ Hslot Hr). simpl.
        eexists. split; [reflexivity|]. left. auto.
    + rewrite SYNTH_Init_no_slot by assumption. simpl.
      exists []. rewrite app_nil_r. auto.
  - destruct (SYNTH_DeInit_effect p st) as (_ & Hc & _ & Hl).
    eexists. split; [exact Hl | exact Hc].
  - destruct (Z.eq_dec (Initialized (SynthCtx st)) 0) as [Hi|Hi].
    + rewrite SYNTH_PlayBuffer_uninit by assumption. simpl.
      exists []. rewrite app_nil_r. auto.
    + destruct (IO.Transmit (SynthIO st)) as [transmit|] eqn:Hslot.
      * rewrite (SYNTH_PlayBuffer_transmit _ _ _ _ _ Hi Hslot).
        rewrite invoke_snd. simpl. eexists. split; [reflexivity|].
        split; [reflexivity|]. right. eauto.
      * rewrite SYNTH_PlayBuffer_no_transmit by assumption. simpl.
        exists []. rewrite app_nil_r. auto.
  - exists []. rewrite app_nil_r. simpl. auto.
  - rewrite SYNTH_SetSampleRate_eq. simpl.
    frame_forwarded as (_ & Hc & Hl). rewrite Hc, Hl. simpl.
    eexists. split; reflexivity.
  - exists []. rewrite app_nil_r. destruct out; simpl; auto.
  - exists []. rewrite app_nil_r. split; [reflexivity|]. split; [|reflexivity].
    destruct (SYNTH_SetVolume_effect p v st) as [_ Hv].
    unfold SYNTH_SetVolume in *. simpl in *. unfold set_Volume.
    f_equal. exact Hv.
  - exists []. rewrite app_nil_r. destruct out; simpl; auto.
  - rewrite SYNTH_Mute_eq. simpl.
    frame_forwarded as (_ & Hc & Hl). rewrite Hc, Hl. simpl.
    eexists. split; reflexivity.
Qed.

Lemma transmit_sizes_app (l1 l2 : list (Event HW)) :
  transmit_sizes (l1 ++ l2) = transmit_sizes l1 ++ transmit_sizes l2.
Proof.
  induction l1 as [|e l1 IH]; simpl; [reflexivity|].
  destruct e; simpl; rewrite IH; reflexivity.
Qed.

Lemma to_uint32_double_sample_bytes (length : Z) :
  sample_bytes (to_uint32 (length * sizeof_int16_t)).
Proof.
  unfold sample_bytes, is_uint32, to_uint32, sizeof_int16_t. split.
  - apply Z.mod_pos_bound. lia.
  - rewrite Z.even_spec.
    assert (H : (length * 2) mod 2 ^ 32
                = length * 2 - 2 ^ 32 * ((length * 2) / 2 ^ 32))
      by (rewrite Z.mod_eq; lia).
    rewrite H. exists (length - 2 ^ 31 * ((length * 2) / 2 ^ 32)). lia.
Qed.

(** X1.  Until a table is registered no callback is ever invoked and the
    context never becomes initialized: after any sequence of calls from
    program start that contains no registration of a non-null table, the
    trace is empty, the table is still all-null, the initialized flag is
    still 0, and [SYNTH_Init] and [SYNTH_PlayBuffer] both return
    [SYNTH_STATUS_ERROR]. *)
Theorem unregistered_driver_stays_idle (ops : list (Op HW)) w
        (Hops : Forall (fun o => registers o = false) ops) :
  let st := run ops (boot w) in
  calls st = []
  /\ SynthIO st = IO.zero
  /\ Initialized (SynthCtx st) = 0
  /\ (forall pObj sample_rate channels,
         SYNTH_Init pObj sample_rate channels st = (SYNTH_STATUS_ERROR, st))
  /\ (forall pObj buffer length,
         SYNTH_PlayBuffer pObj buffer length st = (SYNTH_STATUS_ERROR, st)).
Proof.
  intros st.
  assert (Hinv : forall (s : State HW),
             SynthIO s = IO.zero -> Initialized (SynthCtx s) = 0 ->
             calls s = [] ->
             SynthIO (run ops s) = IO.zero
             /\ Initialized (SynthCtx (run ops s)) = 0
             /\ calls (run ops s) = []).
  { induction Hops as [|o ops Ho _ IH]; intros s Hio Hi Hl; simpl; [auto|].
    destruct (step_calls o s) as (Hio' & new & Hl' & Hs).
    specialize (Hio' Ho). rewrite Hio in Hs.
    assert (Hnew : new = []).
    { destruct Hs as [|e new' He _]; [reflexivity|].
      destruct e; simpl in He; discriminate He. }
    subst new. rewrite app_nil_r in Hl'.
    apply IH; [congruence| |congruence].
    destruct (step_shape o s) as (new & Hl2 & Hshape).
    rewrite Hl', Hl in Hl2. simpl in Hl2. subst new. cbv zeta in Hshape.
    destruct o as [p pIO|p sr ch|p|p buf len|p|p sr|p out|p v|p out|p en].
    - destruct Hshape as [Hc _]. rewrite Hc. exact Hi.
    - destruct Hshape as [ [Hc _] | [_ (f & rest & Hcontra)] ];
        [rewrite Hc; exact Hi | discriminate Hcontra].
    - rewrite Hshape. reflexivity.
    - destruct Hshape as [Hc _]. rewrite Hc. exact Hi.
    - destruct Hshape as [Hc _]. rewrite Hc. exact Hi.
    - rewrite Hshape. exact Hi.
    - destruct Hshape as [Hc _]. rewrite Hc. exact Hi.
    - destruct Hshape as [Hc _]. rewrite Hc. exact Hi.
    - destruct Hshape as [Hc _]. rewrite Hc. exact Hi.
    - rewrite Hshape. exact Hi. }
  destruct (Hinv (boot w) eq_refl eq_refl eq_refl) as (Hio & Hi & Hl).
  fold st in Hio, Hi, Hl.
  split; [exact Hl|]. split; [exact Hio|]. split; [exact Hi|]. split.
  - intros p sr ch. apply SYNTH_Init_no_slot. rewrite Hio. reflexivity.
  - intros p buf len. apply SYNTH_PlayBuffer_uninit. exact Hi.
Qed.


(** X2.  Each getter returns [SYNTH_STATUS_ERROR] exactly when its output
    pointer is null, and then changes nothing.  With a non-null pointer it
    writes the one addressed object: every other object in the caller's
    memory, the hardware, the context, the registered table and the trace are
    as before. *)
Theorem getters_write_only_their_target pObj (a b : Z) st (Hab : a <> b) :
  let s1 := snd (SYNTH_GetSampleRate pObj (Some a) st) in
  let s2 := snd (SYNTH_GetVolume pObj (Some a) st) in
  (forall out : ptr,
      fst (SYNTH_GetSampleRate pObj out st) = SYNTH_STATUS_ERROR <-> out = NULL)
  /\ (forall out : ptr,
         fst (SYNTH_GetVolume pObj out st) = SYNTH_STATUS_ERROR <-> out = NULL)
  /\ SYNTH_GetSampleRate pObj NULL st = (SYNTH_STATUS_ERROR, st)
  /\ SYNTH_GetVolume pObj NULL st = (SYNTH_STATUS_ERROR, st)
  /\ (mem (world s1) !! b = mem (world st) !! b
      /\ hw (world s1) = hw (world st)
      /\ SynthCtx s1 = SynthCtx st /\ SynthIO s1 = SynthIO st
      /\ calls s1 = calls st)
  /\ (mem (world s2) !! b = mem (world st) !! b
      /\ hw (world s2) = hw (world st)
      /\ SynthCtx s2 = SynthCtx st /\ SynthIO s2 = SynthIO st
      /\ calls s2 = calls st).
Proof.
  intros s1 s2. subst s1 s2. unfold NULL, SYNTH_STATUS_ERROR.
  split; [|split; [|split; [|split; [|split]]]].
  - intros out. destruct out; simpl; split; intros H;
      try reflexivity; discriminate H.
  - intros out. destruct out; simpl; split; intros H;
      try reflexivity; discriminate H.
  - reflexivity.
  - reflexivity.
  - simpl. split; [apply lookup_insert_ne; exact Hab | auto].
  - simpl. split; [apply lookup_insert_ne; exact Hab | auto].
Qed.

(** X3.  Whatever table is registered and whatever its set-sample-rate
    callback returns, [SYNTH_SetSampleRate] returns [SYNTH_STATUS_OK] and a
    following [SYNTH_GetSampleRate] stores the rate just set; the other
    context fields are untouched. *)
Theorem SetSampleRate_GetSampleRate_roundtrip pObj pObj' (rate a : Z) st :
  let r1 := SYNTH_SetSampleRate pObj rate st in
  let r2 := SYNTH_GetSampleRate pObj' (Some a) (snd r1) in
  fst r1 = SYNTH_STATUS_OK
  /\ fst r2 = SYNTH_STATUS_OK
  /\ mem (world (snd r2)) !! a = Some rate
  /\ SynthCtx (snd r1) = set_SampleRate rate (SynthCtx st).
Proof.
  intros r1 r2.
  destruct (SYNTH_GetSampleRate_effect pObj' a (snd r1)) as [H2 Hm].
  fold r2 in H2, Hm. subst r1.
  rewrite SYNTH_SetSampleRate_eq in *. simpl in *.
  revert Hm. frame_forwarded as (_ & Hc & _). rewrite Hc. simpl.
  intros Hm. auto.
Qed.

(** X4.  Playback reads the context only to test whether the initialized
    flag is zero: on two initialized contexts that differ in any way (volume,
    mute flag, sample rate, channels), [SYNTH_PlayBuffer] returns the same
    status, makes the same callback call and leaves the same world.  In
    particular a muted driver still transmits. *)
Theorem PlayBuffer_ignores_volume_and_mute pObj buffer length st
        (c1 c2 : SYNTH_Ctx_t)
        (H1 : Initialized c1 <> 0) (H2 : Initialized c2 <> 0) :
  let r1 := SYNTH_PlayBuffer pObj buffer length (set_ctx c1 st) in
  let r2 := SYNTH_PlayBuffer pObj buffer length (set_ctx c2 st) in
  fst r1 = fst r2
  /\ world (snd r1) = world (snd r2)
  /\ calls (snd r1) = calls (snd r2)
  /\ SynthCtx (snd r1) = c1
  /\ SynthCtx (snd r2) = c2.
Proof.
  intros r1 r2. subst r1 r2.
  destruct (IO.Transmit (SynthIO st)) as [transmit|] eqn:Hslot.
  - rewrite (SYNTH_PlayBuffer_transmit pObj buffer length (set_ctx c1 st)
               transmit H1 Hslot).
    rewrite (SYNTH_PlayBuffer_transmit pObj buffer length (set_ctx c2 st)
               transmit H2 Hslot).
    rewrite !invoke_fst, !invoke_snd. simpl. auto.
  - rewrite (SYNTH_PlayBuffer_no_transmit pObj buffer length (set_ctx c1 st)
               H1 Hslot).
    rewrite (SYNTH_PlayBuffer_no_transmit pObj buffer length (set_ctx c2 st)
               H2 Hslot).
    simpl. auto.
Qed.

(** X5.  After [SYNTH_DeInit], whatever the state before, [SYNTH_PlayBuffer]
    returns [SYNTH_STATUS_ERROR] without calling the transmit callback; the
    registered table survives the deinit, so no new registration is needed
    before the next [SYNTH_Init]. *)
Theorem PlayBuffer_after_DeInit_is_refused pObj pObj' buffer length st :
  let st1 := snd (SYNTH_DeInit pObj st) in
  SYNTH_PlayBuffer pObj' buffer length st1 = (SYNTH_STATUS_ERROR, st1)
  /\ transmit_sizes (calls st1) = transmit_sizes (calls st)
  /\ SynthIO st1 = SynthIO st.
Proof.
  intros st1.
  destruct (SYNTH_DeInit_effect pObj st) as (_ & Hc & Hio & Hl).
  fold st1 in Hc, Hio, Hl.
  split; [|split; [|exact Hio]].
  - apply SYNTH_PlayBuffer_uninit. rewrite Hc. reflexivity.
  - rewrite Hl, transmit_sizes_app.
    destruct (IO.DeInit (SynthIO st)); simpl; apply app_nil_r.
Qed.

(** X6.  Registering a table while the context is initialized leaves the
    context initialized and makes no call: the next [SYNTH_PlayBuffer] goes
    straight to the new table's transmit callback, the new table's init
    callback never having been invoked. *)
Theorem RegisterBusIO_while_ready_redirects_playback
        pObj pObj' buffer length st (B : IO.t HW)
        (transmit : ptr -> Z -> World HW -> Z * World HW)
        (Hready : Initialized (SynthCtx st) <> 0)
        (Hslot : IO.Transmit B = Some transmit) :
  let st1 := snd (SYNTH_RegisterBusIO pObj (Some B) st) in
  let size := to_uint32 (length * sizeof_int16_t) in
  let res := SYNTH_PlayBuffer pObj' buffer length st1 in
  SynthCtx st1 = SynthCtx st
  /\ calls st1 = calls st
  /\ world st1 = world st
  /\ fst res = fst (transmit buffer size (world st))
  /\ world (snd res) = snd (transmit buffer size (world st))
  /\ calls (snd res) = calls st ++ [CallTransmit transmit buffer size].
Proof.
  intros st1 size res. subst res.
  rewrite (SYNTH_PlayBuffer_transmit pObj' buffer length st1 transmit
             Hready Hslot).
  rewrite invoke_fst, invoke_snd. simpl. auto 10.
Qed.

(** X7.  The driver itself produces only [SYNTH_STATUS_OK] and
    [SYNTH_STATUS_ERROR]: every call returns one of the two, except a
    [SYNTH_PlayBuffer] that reaches the transmit callback, which returns what
    the callback returned.  Busy and timeout are never produced by the
    driver. *)
Theorem status_is_OK_or_ERROR_or_transmit_result (o : Op HW) st :
  fst (step o st) = SYNTH_STATUS_OK
  \/ fst (step o st) = SYNTH_STATUS_ERROR
  \/ exists pObj buffer length transmit,
       o = OpPlayBuffer pObj buffer length
       /\ Initialized (SynthCtx st) <> 0
       /\ IO.Transmit (SynthIO st) = Some transmit
       /\ fst (step o st)
          = fst (transmit buffer (to_uint32 (length * sizeof_int16_t)) (world st)).
Proof.
  destruct o as [p pIO|p sr ch|p|p buf len|p|p sr|p out|p v|p out|p en];
    cbn [step].
  - destruct pIO; simpl; auto.
  - destruct (IO.Init (SynthIO st)) as [init|] eqn:Hslot.
    + destruct (Z.eq_dec (fst (init (world st))) 0) as [Hr|Hr].
      * rewrite (SYNTH_Init_succeeds _ _ _ _ _ Hslot Hr). auto.
      * rewrite (SYNTH_Init_fails _ _ _ _ _ Hslot Hr). auto.
    + rewrite SYNTH_Init_no_slot by assumption. auto.
  - auto.
  - destruct (Z.eq_dec (Initialized (SynthCtx st)) 0) as [Hi|Hi].
    + rewrite SYNTH_PlayBuffer_uninit by assumption. auto.
    + destruct (IO.Transmit (SynthIO st)) as [transmit|] eqn:Hslot.
      * right; right. exists p, buf, len, transmit.
        rewrite (SYNTH_PlayBuffer_transmit _ _ _ _ _ Hi Hslot).
        rewrite invoke_fst. auto.
      * rewrite SYNTH_PlayBuffer_no_transmit by assumption. auto.
  - auto.
  - auto.
  - destruct out; simpl; auto.
  - auto.
  - destruct out; simpl; auto.
  - auto.
Qed.

(** *** Invariants of reachable states *)

Lemma step_ctx_in_range (o : Op HW) st :
  wf_op o -> ctx_in_range (SynthCtx st) ->
  ctx_in_range (SynthCtx (snd (step o st))).
Proof.
  intros Hwf Hin.
  destruct (step_shape o st) as (new & _ & Hshape). cbv zeta in Hshape.
  destruct o as [p pIO|p sr ch|p|p buf len|p|p sr|p out|p v|p out|p en];
    simpl in Hwf;
    try (lazymatch type of Hshape with
         | _ = SynthCtx st /\ _ => rewrite (proj1 Hshape); exact Hin
         end).
  - destruct Hshape as [ [Hc _] | [Hc _] ]; rewrite Hc; [exact Hin|].
    unfold ctx_in_range, SYNTH_DEFAULT_VOLUME, is_uint8, is_uint32 in *.
    simpl. lia.
  - rewrite Hshape. unfold ctx_in_range, is_uint8, is_uint32. simpl. lia.
  - rewrite Hshape.
    unfold ctx_in_range, is_uint8, is_uint32 in *. simpl. lia.
  - destruct Hshape as [Hc _]. rewrite Hc.
    unfold ctx_in_range, is_uint8, is_uint32 in *. simpl. lia.
  - rewrite Hshape.
    unfold ctx_in_range, is_uint8, is_uint32 in *. simpl. lia.
Qed.

(** X8.  In every state reached from program start by calls whose arguments
    fit their C parameter types, each context field fits its field type: the
    sample rate is a [uint32_t], channels and mute flag are [uint8_t]s, the
    volume is between 0 and 100 and the initialized flag is 0 or 1. *)
Theorem reachable_context_in_range (ops : list (Op HW)) w
        (Hwf : Forall wf_op ops) :
  ctx_in_range (SynthCtx (run ops (boot w))).
Proof.
  assert (Hboot : ctx_in_range (SynthCtx (boot w))).
  { unfold ctx_in_range, is_uint32, is_uint8. simpl. lia. }
  revert Hboot. generalize (boot w).
  induction Hwf as [|o ops Ho _ IH]; intros s Hs; simpl.
  - exact Hs.
  - apply IH, step_ctx_in_range; assumption.
Qed.

(** X9.  Only [SYNTH_Init] and [SYNTH_DeInit] change the initialized flag:
    every other call, whatever it returns, leaves the flag as it was; a
    [SYNTH_Init] that returns [SYNTH_STATUS_ERROR] leaves it too, a successful
    one sets it to 1, and [SYNTH_DeInit] clears it. *)
Theorem only_Init_and_DeInit_change_Initialized (o : Op HW) st :
  let flag := Initialized (SynthCtx st) in
  let flag' := Initialized (SynthCtx (snd (step o st))) in
  match o with
  | OpInit _ _ _ =>
    (fst (step o st) = SYNTH_STATUS_ERROR /\ flag' = flag)
    \/ (fst (step o st) = SYNTH_STATUS_OK /\ flag' = 1)
  | OpDeInit _ => flag' = 0
  | _ => flag' = flag
  end.
Proof.
  intros flag flag'. subst flag flag'.
  destruct (step_shape o st) as (new & _ & Hshape). cbv zeta in Hshape.
  destruct o as [p pIO|p sr ch|p|p buf len|p|p sr|p out|p v|p out|p en];
    try (lazymatch type of Hshape with
         | _ /\ _ => rewrite (proj1 Hshape); reflexivity
         | _ = _ => rewrite Hshape; reflexivity
         end).
  cbn [step] in *.
  destruct (IO.Init (SynthIO st)) as [init|] eqn:Hslot.
  - destruct (Z.eq_dec (fst (init (world st))) 0) as [Hr|Hr].
    + right. rewrite (SYNTH_Init_succeeds _ _ _ _ _ Hslot Hr). simpl.
      frame_forwarded as (_ & Hc & _). rewrite Hc. auto.
    + left. rewrite (SYNTH_Init_fails _ _ _ _ _ Hslot Hr). auto.
  - left. rewrite SYNTH_Init_no_slot by assumption. auto.
Qed.

(** X10.  A context reached from program start is initialized only if the
    init callback of some registered table has been invoked: whenever the
    initialized flag is non-zero, the trace contains a call to an init
    callback. *)
Theorem ready_only_after_backend_init (ops : list (Op HW)) w
        (Hready : Initialized (SynthCtx (run ops (boot w))) <> 0) :
  exists f, In (CallInit f) (calls (run ops (boot w))).
Proof.
  assert (Hinv : forall (s : State HW),
             (Initialized (SynthCtx s) = 0 \/ exists f, In (CallInit f) (calls s)) ->
             Initialized (SynthCtx (run ops s)) = 0
             \/ exists f, In (CallInit f) (calls (run ops s))).
  { clear Hready.
    induction ops as [|o ops IH]; intros s Hs; simpl; [exact Hs|].
    apply IH.
    destruct (step_shape o s) as (new & Hl & Hshape). cbv zeta in Hshape.
    assert (Hkeep : SynthCtx (snd (step o s)) = SynthCtx s
                    \/ Initialized (SynthCtx (snd (step o s)))
                       = Initialized (SynthCtx s) ->
                    Initialized (SynthCtx (snd (step o s))) = 0
                    \/ exists f, In (CallInit f) (calls (snd (step o s)))).
    { intros Hc. destruct Hs as [Hz | [f Hf] ].
      - left. destruct Hc as [Hc|Hc]; rewrite Hc; exact Hz.
      - right. exists f. rewrite Hl. apply in_or_app. left. exact Hf. }
    destruct o as [p pIO|p sr ch|p|p buf len|p|p sr|p out|p v|p out|p en].
    - apply Hkeep. left. apply Hshape.
    - destruct Hshape as [ [Hc _] | [_ (f & rest & Hnew)] ].
      + apply Hkeep. left. exact Hc.
      + right. exists f. rewrite Hl, Hnew. apply in_or_app. right. left.
        reflexivity.
    - left. rewrite Hshape. reflexivity.
    - apply Hkeep. left. apply Hshape.
    - apply Hkeep. left. apply Hshape.
    - apply Hkeep. right. rewrite Hshape. reflexivity.
    - apply Hkeep. left. apply Hshape.
    - apply Hkeep. right. destruct Hshape as [Hc _]. rewrite Hc. reflexivity.
    - apply Hkeep. left. apply Hshape.
    - apply Hkeep. right. rewrite Hshape. reflexivity. }
  destruct (Hinv (boot w) (or_introl eq_refl)) as [Hz|Hf].
  - contradiction.
  - exact Hf.
Qed.

(** X11.  Every byte size the driver ever hands to a transmit callback is an
    even number that fits a [uint32_t], whatever the lengths asked for: in
    the trace of any sequence of calls from program start, all transmit
    sizes are even and below 2^32. *)
Theorem transmit_sizes_even_uint32 (ops : list (Op HW)) w :
  Forall sample_bytes (transmit_sizes (calls (run ops (boot w)))).
Proof.
  assert (Hboot : Forall sample_bytes (transmit_sizes (calls (boot w))))
    by constructor.
  revert Hboot. generalize (boot w).
  induction ops as [|o ops IH]; intros s Hs; simpl; [exact Hs|].
  apply IH.
  destruct (step_shape o s) as (new & Hl & Hshape). cbv zeta in Hshape.
  rewrite Hl, transmit_sizes_app. apply Forall_app. split; [exact Hs|].
  destruct (step_calls o s) as (_ & new' & Hl' & _).
  clear Hs IH.
  destruct o as [p pIO|p sr ch|p|p buf len|p|p sr|p out|p v|p out|p en];
    cbn [step] in *.
  - destruct Hshape as [_ ->]. constructor.
  - destruct (IO.Init (SynthIO s)) as [init|] eqn:Hslot.
    + destruct (Z.eq_dec (fst (init (world s))) 0) as [Hr|Hr].
      * rewrite (SYNTH_Init_succeeds _ _ _ _ _ Hslot Hr) in Hl. simpl in Hl.
        revert Hl. frame_forwarded as (_ & _ & Hf). rewrite Hf. simpl.
        rewrite <- app_assoc. intros Hl. apply app_inv_head in Hl. subst new.
        simpl. destruct (IO.SetSampleRate (SynthIO s)); constructor.
      * rewrite (SYNTH_Init_fails _ _ _ _ _ Hslot Hr) in Hl. simpl in Hl.
        apply app_inv_head in Hl. subst new. constructor.
    + rewrite SYNTH_Init_no_slot in Hl by assumption. simpl in Hl.
      rewrite <- (app_nil_r (calls s)) in Hl at 1.
      apply app_inv_head in Hl. subst new. constructor.
  - destruct (SYNTH_DeInit_effect p s) as (_ & _ & _ & Hd).
    rewrite Hd in Hl. apply app_inv_head in Hl. subst new.
    destruct (IO.DeInit (SynthIO s)); constructor.
  - destruct Hshape as [_ [-> | [f ->] ] ]; simpl; [constructor|].
    constructor; [apply to_uint32_double_sample_bytes | constructor].
  - destruct Hshape as [_ ->]. constructor.
  - destruct (SYNTH_SetSampleRate_effect p sr s) as (_ & _ & Hd).
    rewrite Hd in Hl. apply app_inv_head in Hl. subst new.
    destruct (IO.SetSampleRate (SynthIO s)); constructor.
  - destruct Hshape as [_ ->]. constructor.
  - destruct Hshape as [_ ->]. constructor.
  - destruct Hshape as [_ ->]. constructor.
  - destruct (SYNTH_Mute_effect p en s) as (_ & _ & Hd).
    rewrite Hd in Hl. apply app_inv_head in Hl. subst new.
    destruct (IO.Mute (SynthIO s)); constructor.
Qed.

(** *** Composition *)

Lemma to_uint32_double_wraps (length : Z) :
  to_uint32 ((length + 2 ^ 31) * sizeof_int16_t)
  = to_uint32 (length * sizeof_int16_t).
Proof.
  unfold to_uint32, sizeof_int16_t.
  replace ((length + 2 ^ 31) * 2) with (length * 2 + 1 * 2 ^ 32) by lia.
  apply Z_mod_plus_full.
Qed.

(** X12.  The sample count is taken modulo 2^31: [SYNTH_PlayBuffer] with
    [length + 2^31] samples returns the same status, makes the same callback
    call with the same byte size and leaves the same state as with [length]
    samples. *)
Theorem PlayBuffer_length_modulo_2_31 pObj buffer (length : Z) st :
  SYNTH_PlayBuffer pObj buffer (length + 2 ^ 31) st
  = SYNTH_PlayBuffer pObj buffer length st.
Proof.
  unfold SYNTH_PlayBuffer. rewrite to_uint32_double_wraps. reflexivity.
Qed.

(** X13.  [SYNTH_SetVolume] changes the volume field and nothing else: the
    other context fields, the registered table, the world and the trace are
    as before, so no callback is invoked and the hardware never sees the
    volume.  A second call overrides the first. *)
Theorem SetVolume_touches_only_Volume pObj pObj' (v v' : Z) st :
  let st1 := snd (SYNTH_SetVolume pObj v st) in
  SynthCtx st1 = set_Volume (Z.min v 100) (SynthCtx st)
  /\ SynthIO st1 = SynthIO st
  /\ world st1 = world st
  /\ calls st1 = calls st
  /\ snd (SYNTH_SetVolume pObj' v' st1) = snd (SYNTH_SetVolume pObj' v' st).
Proof.
  intros st1.
  destruct (SYNTH_SetVolume_effect pObj v st) as [_ Hv]. fold st1 in Hv.
  split; [|repeat split].
  subst st1. unfold SYNTH_SetVolume in *. simpl in *. unfold set_Volume.
  f_equal. exact Hv.
Qed.

(** X14.  [SYNTH_Mute] returns [SYNTH_STATUS_OK] in every state, with or
    without a mute callback and whatever that callback returns.  It stores
    the flag exactly as passed, leaves the other context fields and the table
    alone, and calls the mute callback, when present, exactly once with the
    same flag. *)
Theorem Mute_stores_and_forwards pObj (enable : Z) st :
  let res := SYNTH_Mute pObj enable st in
  fst res = SYNTH_STATUS_OK
  /\ SynthCtx (snd res) = set_Mute enable (SynthCtx st)
  /\ SynthIO (snd res) = SynthIO st
  /\ calls (snd res)
     = calls st ++ match IO.Mute (SynthIO st) with
                   | Some f => [CallMute f enable]
                   | None => []
                   end
  /\ world (snd res)
     = match IO.Mute (SynthIO st) with
       | Some f => snd (f enable (world st))
       | None => world st
       end.
Proof.
  intros res. subst res. rewrite SYNTH_Mute_eq. simpl.
  frame_forwarded as (Hio & Hc & Hl). rewrite Hio, Hc, Hl. simpl.
  repeat split.
  destruct (IO.Mute (SynthIO st)) as [f|]; simpl; [|reflexivity].
  rewrite invoke_snd. reflexivity.
Qed.

(** X15.  From program start, registering a table whose init callback
    returns 0 and then calling [SYNTH_Init] makes the driver ready: a
    following [SYNTH_PlayBuffer] returns what the table's transmit callback
    returns, and the whole trace is the init call, the set-sample-rate call
    if that slot is non-null, and the one transmit call. *)
Theorem register_init_play_from_boot pObj buffer (length sample_rate channels : Z)
        w (B : IO.t HW)
        (init : World HW -> Z * World HW)
        (transmit : ptr -> Z -> World HW -> Z * World HW)
        (Hinit : IO.Init B = Some init)
        (Hok : fst (init w) = 0)
        (Htx : IO.Transmit B = Some transmit) :
  let st := run [OpRegisterBusIO pObj (Some B);
                 OpInit pObj sample_rate channels] (boot w) in
  let size := to_uint32 (length * sizeof_int16_t) in
  let res := SYNTH_PlayBuffer pObj buffer length st in
  SynthCtx st = mkCtx sample_rate channels SYNTH_DEFAULT_VOLUME 0 1
  /\ fst res = fst (transmit buffer size (world st))
  /\ calls (snd res)
     = CallInit init
       :: match IO.SetSampleRate B with
          | Some f => [CallSetSampleRate f sample_rate]
          | None => []
          end
       ++ [CallTransmit transmit buffer size].
Proof.
  intros st size res.
  assert (Hst : SynthCtx st = mkCtx sample_rate channels SYNTH_DEFAULT_VOLUME 0 1
                /\ SynthIO st = B
                /\ calls st = CallInit init
                              :: match IO.SetSampleRate B with
                                 | Some f => [CallSetSampleRate f sample_rate]
                                 | None => []
                                 end).
  { subst st. cbn [run step]. cbn [SYNTH_RegisterBusIO snd].
    rewrite (SYNTH_Init_succeeds pObj sample_rate channels
               (set_io B (boot w)) init Hinit Hok).
    simpl. frame_forwarded as (Hio & Hc & Hl). rewrite Hio, Hc, Hl. auto. }
  destruct Hst as (Hc & Hio & Hl).
  assert (Hready : Initialized (SynthCtx st) <> 0) by (rewrite Hc; simpl; lia).
  assert (Hslot : IO.Transmit (SynthIO st) = Some transmit) by (rewrite Hio; exact Htx).
  subst res.
  rewrite (SYNTH_PlayBuffer_transmit pObj buffer length st transmit Hready Hslot).
  rewrite invoke_fst, invoke_snd. simpl. rewrite Hl.
  split; [exact Hc|]. split; reflexivity.
Qed.

End Lifecycle.

(** ** Closed instances of the further properties *)

(** Init, set-volume, play and a null registration at program start: nothing
    is called and the driver is still not ready. *)
Lemma unregistered_driver_stays_idle_witness :
  let ops := [OpInit NULL 48000 2; OpSetVolume NULL 10;
              OpPlayBuffer NULL (Some 4096) 256; OpRegisterBusIO NULL None] in
  Forall (fun o => registers o = false) ops
  /\ calls (run ops (boot world0)) = []
  /\ Initialized (SynthCtx (run ops (boot world0))) = 0
  /\ fst (SYNTH_PlayBuffer NULL (Some 4096) 256 (run ops (boot world0)))
     = SYNTH_STATUS_ERROR.
Proof.
  intros ops.
  assert (Hops : Forall (fun o => registers o = false) ops)
    by (repeat constructor).
  split; [exact Hops|].
  pose proof (unregistered_driver_stays_idle ops world0 Hops) as H.
  cbv zeta in H. destruct H as (Hl & _ & Hi & _ & Hplay).
  split; [exact Hl|]. split; [exact Hi|].
  rewrite (Hplay NULL (Some 4096) 256). reflexivity.
Defined.

(** Reading the sample rate into address 8 leaves address 16 alone. *)
Lemma getters_write_only_their_target_witness :
  8 <> 16
  /\ mem (world (snd (SYNTH_GetSampleRate NULL (Some 8) ready))) !! 16
     = mem (world ready) !! 16
  /\ SYNTH_GetVolume NULL NULL ready = (SYNTH_STATUS_ERROR, ready).
Proof.
  assert (Hab : 8 <> 16) by lia.
  split; [exact Hab|].
  pose proof (getters_write_only_their_target NULL 8 16 ready Hab) as H.
  cbv zeta in H. destruct H as (_ & _ & _ & Hnull & (Hframe & _) & _).
  split; [exact Hframe | exact Hnull].
Defined.

(** The ready board, and the same board muted with volume 0: playing 256
    samples makes the same 512-byte transmit call on both. *)
Lemma PlayBuffer_ignores_volume_and_mute_witness :
  let quiet := mkCtx 48000 2 0 1 1 in
  Initialized (SynthCtx ready) <> 0
  /\ Initialized quiet <> 0
  /\ calls (snd (SYNTH_PlayBuffer NULL (Some 4096) 256 (set_ctx quiet ready)))
     = calls (snd (SYNTH_PlayBuffer NULL (Some 4096) 256
                     (set_ctx (SynthCtx ready) ready)))
  /\ fst (SYNTH_PlayBuffer NULL (Some 4096) 256 (set_ctx quiet ready))
     = fst (SYNTH_PlayBuffer NULL (Some 4096) 256
              (set_ctx (SynthCtx ready) ready)).
Proof.
  intros quiet.
  assert (H1 : Initialized (SynthCtx ready) <> 0) by (simpl; lia).
  assert (H2 : Initialized quiet <> 0) by (simpl; lia).
  split; [exact H1|]. split; [exact H2|].
  pose proof (PlayBuffer_ignores_volume_and_mute
                NULL (Some 4096) 256 ready (SynthCtx ready) quiet H1 H2) as H.
  cbv zeta in H. destruct H as (Hr & _ & Hl & _).
  split; [symmetry; exact Hl | symmetry; exact Hr].
Defined.

(** On the ready board, a table holding only a transmit callback is
    registered: the next play returns that callback's 7. *)
Lemma RegisterBusIO_while_ready_redirects_playback_witness :
  let tx := fun (_ : ptr) (_ : Z) (w : World Z) => (7, w) in
  let B := IO.mk None None (Some tx) None None None in
  let st1 := snd (SYNTH_RegisterBusIO NULL (Some B) ready) in
  Initialized (SynthCtx ready) <> 0
  /\ IO.Transmit B = Some tx
  /\ fst (SYNTH_PlayBuffer NULL (Some 4096) 256 st1) = 7
  /\ calls (snd (SYNTH_PlayBuffer NULL (Some 4096) 256 st1))
     = calls ready ++ [CallTransmit tx (Some 4096) 512].
Proof.
  intros tx B st1.
  assert (Hready : Initialized (SynthCtx ready) <> 0) by (simpl; lia).
  split; [exact Hready|]. split; [reflexivity|].
  pose proof (RegisterBusIO_while_ready_redirects_playback
                NULL NULL (Some 4096) 256 ready B tx Hready eq_refl) as H.
  cbv zeta in H. destruct H as (_ & _ & _ & Hr & _ & Hl).
  split; [exact Hr | exact Hl].
Defined.

(** Register, init, volume 255 and mute 1: the context is (48000, 2, 100,
    1, 1), every field in range. *)
Lemma reachable_context_in_range_witness :
  let ops := [OpRegisterBusIO NULL (Some board); OpInit NULL 48000 2;
              OpSetVolume NULL 255; OpMute NULL 1] in
  Forall wf_op ops
  /\ ctx_in_range (SynthCtx (run ops (boot world0)))
  /\ SynthCtx (run ops (boot world0)) = mkCtx 48000 2 100 1 1.
Proof.
  intros ops.
  assert (Hwf : Forall wf_op ops).
  { repeat (constructor;
            [simpl; unfold is_uint32, is_uint8; try lia; exact I|]).
    constructor. }
  split; [exact Hwf|].
  split; [exact (reachable_context_in_range ops world0 Hwf) | reflexivity].
Defined.

(** The ready board is initialized, and its trace holds the init call. *)
Lemma ready_only_after_backend_init_witness :
  let ops := [OpRegisterBusIO NULL (Some board); OpInit NULL 48000 2] in
  Initialized (SynthCtx (run ops (boot world0))) <> 0
  /\ exists f, In (CallInit f) (calls (run ops (boot world0))).
Proof.
  intros ops.
  assert (Hready : Initialized (SynthCtx (run ops (boot world0))) <> 0)
    by (simpl; lia).
  split; [exact Hready|].
  exact (ready_only_after_backend_init ops world0 Hready).
Defined.

(** The concrete board from program start: init, set-sample-rate, then one
    512-byte transmit whose result 0 is returned. *)
Lemma register_init_play_from_boot_witness :
  IO.Init board = Some board_Init
  /\ fst (board_Init world0) = 0
  /\ IO.Transmit board = Some board_Transmit
  /\ fst (SYNTH_PlayBuffer NULL (Some 4096) 256 ready) = 0
  /\ calls (snd (SYNTH_PlayBuffer NULL (Some 4096) 256 ready))
     = [CallInit board_Init; CallSetSampleRate board_SetSampleRate 48000;
        CallTransmit board_Transmit (Some 4096) 512].
Proof.
  split; [reflexivity|]. split; [reflexivity|]. split; [reflexivity|].
  pose proof (register_init_play_from_boot
                NULL (Some 4096) 256 48000 2 world0 board
                board_Init board_Transmit eq_refl eq_refl eq_refl) as H.
  cbv zeta in H. destruct H as (_ & Hr & Hl).
  split; [exact Hr | exact Hl].
Defined.
